(** * lrmr: worker server and node manager

    A shallow embedding of the worker-side RPC handlers
    ([Worker.Start], [Worker.CreateTasks], [Worker.PushData]) and of the
    node manager ([manager.List], [manager.UnregisterNode],
    [manager.Close]).

    Conventions of the embedding.
    - A Go function returning [(T, error)] returns a [result T]; one that
      can also fault on a nil pointer returns an [outcome T].
    - Calls that leave the process (coordinator, listener, peers, the
      user function) take their answer from an explicit environment
      argument, and coordinator calls are reported as a list of
      [CrdCall]s.
    - [map[string]*TaskExecutor] is a registry of addresses into a store
      of executors, so that an executor outlives its registry entry. *)

From Stdlib Require Import ZArith NArith String Ascii List DecimalString.
From stdpp Require Import gmap strings list fin_maps.

Local Open Scope string_scope.
Local Open Scope list_scope.

(** ** Errors *)

(** google.golang.org/grpc/codes, the codes the handlers use. *)
Inductive Code := OK | Cancelled | Unknown | InvalidArgument | Unavailable | Internal.

Definition Code_String (c : Code) : string :=
  match c with
  | OK => "OK"
  | Cancelled => "Canceled"
  | Unknown => "Unknown"
  | InvalidArgument => "InvalidArgument"
  | Unavailable => "Unavailable"
  | Internal => "Internal"
  end.

(** A Go [error] value, by the way it was built. *)
Inductive error :=
| StatusError (c : Code) (msg : string)     (* status.Error, status.Errorf *)
| PlainError (msg : string)                 (* errors.New, fmt.Errorf with %v *)
| WrapError (msg : string) (cause : error). (* errors.Wrap, fmt.Errorf with %w *)

(** [err.Error()]. *)
Fixpoint error_text (e : error) : string :=
  match e with
  | StatusError c msg => "rpc error: code = " +:+ Code_String c +:+ " desc = " +:+ msg
  | PlainError msg => msg
  | WrapError msg cause => msg +:+ ": " +:+ error_text cause
  end.

(** [status.Code(err)] for a non-nil error: the code of a status error,
    [Unknown] for any error that is not itself a status. *)
Definition status_Code (e : error) : Code :=
  match e with
  | StatusError c _ => c
  | _ => Unknown
  end.

(** [(T, error)] *)
Inductive result (A : Type) :=
| Ok (a : A)
| Err (e : error).
Arguments Ok {A} a.
Arguments Err {A} e.

(** [(T, error)] of a function that may also fault. *)
Inductive outcome (A : Type) :=
| Return (a : A)
| Fail (e : error)
| Panic (why : string).
Arguments Return {A} a.
Arguments Fail {A} e.
Arguments Panic {A} why.

Definition nil_dereference : string :=
  "invalid memory address or nil pointer dereference".

(** ** strings *)

(** [strings.HasSuffix]: len(s) >= len(suffix) && s[len(s)-len(suffix):] == suffix *)
Definition HasSuffix (s suffix : string) : bool :=
  (String.length suffix <=? String.length s)%nat &&
  String.eqb (substring (String.length s - String.length suffix) (String.length suffix) s) suffix.

(** [strings.Split] for a separator of one byte: the pieces between the
    separators, a single piece when there is none. *)
Fixpoint Split (s : string) (sep : ascii) : list string :=
  match s with
  | EmptyString => [EmptyString]
  | String c rest =>
      if Ascii.eqb c sep then EmptyString :: Split rest sep
      else match Split rest sep with
           | piece :: pieces => String c piece :: pieces
           | [] => [String c EmptyString]
           end
  end.

(** [strconv.Itoa] on a port number. *)
Definition itoa (n : N) : string := NilZero.string_of_uint (N.to_uint n).

(** [strings.IndexByte(s, c) >= 0] *)
Fixpoint ContainsByte (s : string) (c : ascii) : bool :=
  match s with
  | EmptyString => false
  | String d rest => Ascii.eqb d c || ContainsByte rest c
  end.

(** ** net *)

Record TCPAddr := { IP : string; Port : N }.

(** [net.JoinHostPort] *)
Definition JoinHostPort (host port : string) : string :=
  if ContainsByte host ":" then "[" +:+ host +:+ "]:" +:+ port
  else host +:+ ":" +:+ port.

(** [TCPAddr.String], for an address without zone. *)
Definition TCPAddr_String (a : TCPAddr) : string := JoinHostPort (IP a) (itoa (Port a)).

(** ** Pieces of the repository and of its libraries that the handlers call *)

(** Modelled from the spec: the node record of [node/node.go], which is
    not part of the sources at hand; identity [{ID, Host, Type, Tags}]
    with Type one of Master and Worker. *)
Inductive NodeType := Master | NodeWorker.

#[global] Instance NodeType_eq_dec : EqDecision NodeType.
Proof. solve_decision. Defined.

Record Node := {
  ID : string;
  Host : string;
  Typ : NodeType;
  Tag : gmap string string;
}.

(** [coordinator.RawItem]: a key and its stored bytes. *)
Record RawItem := { Key : string; Value : string }.

(** [stage.Stage], the fields the worker reads. *)
Record StageOutput := { OutStage : string; Partitioner : option string }.
Record Stage := { Name : string; Function : string; Output : StageOutput }.

(** Modelled from the spec: the task record of package job, which is not
    part of the sources at hand; attributes [{JobID, StageName,
    PartitionID, NodeID}]. *)
Record Task := {
  JobID : string;
  StageName : string;
  PartitionID : string;
  NodeID : string;
}.

(** [job.TaskReference], as [RunningJob.Abort] builds it. *)
Record TaskReference := {
  RefJobID : string;
  RefStageName : string;
  RefTaskID : string;
}.

(** Modelled from the spec: [Task.Reference] and [TaskReference.String]
    are not part of the sources at hand; the task reference serialises to
    JobID/StageName/PartitionID. *)
Definition Reference (t : Task) : TaskReference :=
  {| RefJobID := JobID t; RefStageName := StageName t; RefTaskID := PartitionID t |}.

Definition TaskReference_String (r : TaskReference) : string :=
  RefJobID r +:+ "/" +:+ RefStageName r +:+ "/" +:+ RefTaskID r.

(** Modelled from the spec: [job.NewTask], not part of the sources at
    hand. The task records the ID of the node it is given, which
    [jobManager.CreateTask] later reads as [task.NodeID]. *)
Definition NewTask (partitionID : string) (n : Node) (jobID : string) (s : Stage) : Task :=
  {| JobID := jobID; StageName := Name s; PartitionID := partitionID; NodeID := ID n |}.

(** Decoders and path handling come from packages outside the sources:
    [path.Join], [RawItem.Unmarshal] into a node, [Stage.UnmarshalJSON],
    [serialization.DeserializeBroadcast] and [Task.ID]. They are pure,
    and the handlers are stated for any of them. *)
Class Externals := {
  path_Join : list string → string;
  RawItem_Unmarshal : RawItem → result Node;
  Stage_UnmarshalJSON : string → result Stage;
  DeserializeBroadcast : gmap string string → result (gmap string string);
  Task_ID : Task → string;
}.

(** ** Coordinator calls *)

Definition LeaseID := Z.

(** A call made on the coordinator; what it answered is an argument of
    the function that makes the call. *)
Inductive CrdCall :=
| GrantLease (ttl : Z)
| Put (key : string) (n : Node) (lease : LeaseID)
| Scan (prefix : string)
| Delete (prefix : string).

(** * Package coordinator: write options *)

Module coordinator.

Record WriteOptions := { Lease : LeaseID }.

(** A [WriteOption] changes the options it is applied to. *)
Definition WriteOption := WriteOptions → WriteOptions.

Definition WithLease (l : LeaseID) : WriteOption :=
  λ o, {| Lease := l |}.

(** [buildWriteOption]: the options are applied in order to the zero
    value. *)
Definition buildWriteOption (opt : list WriteOption) : WriteOptions :=
  fold_left (λ o optApplyFn, optApplyFn o) opt {| Lease := 0%Z |}.

End coordinator.

(** * Package node: the node manager *)

Module node.

Definition nodeNs : string := "nodes".

Record ManagerOptions := {
  ConnectTimeout : Z;
  LivenessProbeInterval : Z;
  TLSCertPath : string;
  TLSCertServerName : string;
}.

(** [connectivity.State] *)
Inductive ConnState := Idle | Connecting | Ready | TransientFailure | Shutdown.

(** A [*grpc.ClientConn]. What closing it answers is decided by the gRPC
    library; [closeErr] holds that answer, nil for a channel that closes
    cleanly. *)
Record ClientConn := {
  target : string;
  connState : ConnState;
  closeErr : option error;
}.

Definition ClientConn_Close (c : ClientConn) : ClientConn * option error :=
  match closeErr c with
  | None => ({| target := target c; connState := Shutdown; closeErr := None |}, None)
  | Some err => (c, Some err)
  end.

Record Ticker := { period : Z; stopped : bool }.

Record manager := {
  self : option Node;
  conns : list (string * ClientConn);
  livenessProveTick : option Ticker;
  opt : ManagerOptions;
}.

Definition set_self (s : option Node) (m : manager) : manager :=
  {| self := s; conns := conns m; livenessProveTick := livenessProveTick m; opt := opt m |}.

Definition set_conns (cs : list (string * ClientConn)) (m : manager) : manager :=
  {| self := self m; conns := cs; livenessProveTick := livenessProveTick m; opt := opt m |}.

Definition set_livenessProveTick (t : option Ticker) (m : manager) : manager :=
  {| self := self m; conns := conns m; livenessProveTick := t; opt := opt m |}.

(** [NewManager]: no self node, no cached channel, no ticker. *)
Definition NewManager (o : ManagerOptions) : manager :=
  {| self := None; conns := []; livenessProveTick := None; opt := o |}.

Section Manager.
Context `{Externals}.

(** [grant] and [put] are the coordinator's answers to GrantLease and Put. *)
Definition registerOrRefresh (grant : result LeaseID) (put : option error)
    (n : Node) (m : manager) : option error * list CrdCall :=
  let ttl_call := GrantLease (LivenessProbeInterval (opt m)) in
  match grant with
  | Err err => (Some (WrapError "grant TTL" err), [ttl_call])
  | Ok ttl => (put, [ttl_call; Put (path_Join [nodeNs; ID n]) n ttl])
  end.

(** [RegisterSelf]. The refresher goroutine is taken to have created its
    ticker by the time the call is over. *)
Definition RegisterSelf (grant : result LeaseID) (put : option error)
    (n : Node) (m : manager) : option error * manager * list CrdCall :=
  match registerOrRefresh grant put n m with
  | (Some err, calls) => (Some err, m, calls)
  | (None, calls) =>
      let tick := {| period := LivenessProbeInterval (opt m); stopped := false |} in
      (None, set_livenessProveTick (Some tick) (set_self (Some n) m), calls)
  end.

Definition Self (m : manager) : option Node := self m.

(** The loop of [List] over the scanned items, [nn] being the slice
    built so far. *)
Fixpoint List_items (items : list RawItem) (typ : NodeType) (nn : list Node)
    : result (list Node) :=
  match items with
  | [] => Ok nn
  | item :: rest =>
      match RawItem_Unmarshal item with
      | Err err => Err (WrapError ("unmarshal item " +:+ Key item) err)
      | Ok n =>
          if decide (Typ n = typ) then List_items rest typ (nn ++ [n])
          else List_items rest typ nn
      end
  end.

(** [List]; [scan] is the coordinator's answer to Scan. *)
Definition List (scan : result (list RawItem)) (typ : NodeType)
    : result (list Node) * list CrdCall :=
  match scan with
  | Err err => (Err (WrapError "scan etcd" err), [Scan nodeNs])
  | Ok items => (List_items items typ [], [Scan nodeNs])
  end.

(** [UnregisterNode]; [del] is the coordinator's answer to Delete. *)
Definition UnregisterNode (del : result Z) (nid : string) (m : manager)
    : outcome unit * manager * list CrdCall :=
  let key := path_Join [nodeNs; nid] in
  match del with
  | Err err =>
      (Fail (PlainError ("failed to remove from etcd: " +:+ error_text err)), m, [Delete key])
  | Ok _ =>
      match self m with
      | None => (Panic nil_dereference, m, [Delete key])
      | Some s =>
          if String.eqb nid (ID s) then
            match livenessProveTick m with
            | None => (Panic nil_dereference, m, [Delete key])
            | Some t =>
                let t' := {| period := period t; stopped := true |} in
                (Return tt, set_self None (set_livenessProveTick (Some t') m), [Delete key])
            end
          else (Return tt, m, [Delete key])
      end
  end.

(** [conns.Range] with the callback of [Close]: [err] is the named
    result, assigned at every channel visited; the walk stops at the
    first channel whose Close answers an error. The list is in the order
    in which Range visits the cache. *)
Fixpoint Range_Close (cs : list (string * ClientConn)) (err : option error)
    : list (string * ClientConn) * option error :=
  match cs with
  | [] => ([], err)
  | (k, v) :: rest =>
      let (v', err') := ClientConn_Close v in
      match err' with
      | None =>
          let (rest', err'') := Range_Close rest err' in
          ((k, v') :: rest', err'')
      | Some _ => ((k, v') :: rest, err')
      end
  end.

Definition Close (m : manager) : option error * manager :=
  let (cs, err) := Range_Close (conns m) None in
  (err, set_conns cs m).

(** [sync.Map.Load] on the cache of channels. *)
Fixpoint Load (cs : list (string * ClientConn)) (host : string) : option ClientConn :=
  match cs with
  | [] => None
  | (k, v) :: rest => if String.eqb k host then Some v else Load rest host
  end.

(** [sync.Map.Store]: the value under the key is replaced, a new key is
    added. *)
Fixpoint Store (cs : list (string * ClientConn)) (host : string) (c : ClientConn)
    : list (string * ClientConn) :=
  match cs with
  | [] => [(host, c)]
  | (k, v) :: rest =>
      if String.eqb k host then (k, c) :: rest else (k, v) :: Store rest host c
  end.

(** A call of [grpc.DialContext], with the host and the timeout of its
    context. *)
Inductive DialCall := DialContext (host : string) (timeout : Z).

(** [establishNewConnection]; [dial] is what DialContext answers. *)
Definition establishNewConnection (dial : result ClientConn) (host : string) (m : manager)
    : result ClientConn * manager * list DialCall :=
  let call := DialContext host (ConnectTimeout (opt m)) in
  match dial with
  | Err err => (Err err, m, [call])
  | Ok c => (Ok c, set_conns (Store (conns m) host c) m, [call])
  end.

(** [Connect]; the state of a cached channel is the one it is in when
    Connect looks. *)
Definition Connect (dial : result ClientConn) (host : string) (m : manager)
    : result ClientConn * manager * list DialCall :=
  match Load (conns m) host with
  | None => establishNewConnection dial host m
  | Some c =>
      match connState c with
      | TransientFailure => establishNewConnection dial host m
      | _ => (Ok c, m, [])
      end
  end.

(** What a logger is given: the format and its arguments. *)
Inductive LogArg := ArgDuration (d : Z) | ArgError (e : error) | ArgString (s : string).
Inductive LogLine :=
| LogError (format : string) (args : list LogArg)
| LogInfo (format : string) (args : list LogArg).

(** The body of the loop of [sendPeriodicLivenessProve] at one tick:
    refresh the registration of the self node and log a failure.
    [registerOrRefresh] reads the ID of the node only once the lease is
    granted, so a nil self node faults then and not before. *)
Definition livenessProve (grant : result LeaseID) (put : option error) (m : manager)
    : outcome (list LogLine) * list CrdCall :=
  let failed err :=
    [ LogError "Failed to renew liveness prove. The node could not be available for {}"
        [ArgDuration (LivenessProbeInterval (opt m))];
      LogError "  Reason: failed to {}" [ArgError err] ] in
  match self m with
  | Some n =>
      match registerOrRefresh grant put n m with
      | (Some err, calls) => (Return (failed err), calls)
      | (None, calls) => (Return [], calls)
      end
  | None =>
      let ttl_call := GrantLease (LivenessProbeInterval (opt m)) in
      match grant with
      | Err err => (Return (failed (WrapError "grant TTL" err)), [ttl_call])
      | Ok _ => (Panic nil_dereference, [ttl_call])
      end
  end.

(** [sendPeriodicLivenessProve] over the ticks its ticker delivers, each
    with what the coordinator answers at that tick. The loop has no
    exit of its own: it is over when the ticks are. *)
Fixpoint sendPeriodicLivenessProve (ticks : list (result LeaseID * option error))
    (m : manager) : outcome (list LogLine) * list CrdCall :=
  match ticks with
  | [] => (Return [], [])
  | (grant, put) :: rest =>
      match livenessProve grant put m with
      | (Return lines, calls) =>
          match sendPeriodicLivenessProve rest m with
          | (Return lines', calls') => (Return (lines ++ lines'), calls ++ calls')
          | (other, calls') => (other, calls ++ calls')
          end
      | (other, calls) => (other, calls)
      end
  end.

End Manager.

End node.

(** * Package job: persisting a task *)

Module job.

Definition taskNs : string := "tasks/".
Definition nodeStatusNs : string := "status/node/".
Definition stageStatusNs : string := "status/stages/".
Definition taskStatusNs : string := "status/tasks/".

(** [RunningState] of a task status. *)
Inductive RunningState := Pending | Running | Succeeded | Failed.

Record TaskStatus := { Status : RunningState }.

(** Modelled from the spec: [newTaskStatus] is not part of the sources at
    hand; a task's status starts as Pending. *)
Definition newTaskStatus : TaskStatus := {| Status := Pending |}.

Inductive Stored := StoredTask (t : Task) | StoredStatus (ts : TaskStatus).

(** The operations [coordinator.NewTxn] collects. *)
Inductive TxnOp :=
| TxnPut (key : string) (v : Stored)
| TxnIncrementCounter (key : string).

(** The job manager, by the transactions it has committed. *)
Record jobManager := { committed : list (list TxnOp) }.

Section JobManager.
Context `{Externals}.

Definition CreateTask_txn (task : Task) (status : TaskStatus) : list TxnOp :=
  [ TxnPut (path_Join [taskNs; Task_ID task]) (StoredTask task);
    TxnPut (path_Join [taskStatusNs; TaskReference_String (Reference task)]) (StoredStatus status);
    TxnIncrementCounter (path_Join [stageStatusNs; JobID task; StageName task; "totalTasks"]);
    TxnIncrementCounter (path_Join [nodeStatusNs; NodeID task; "totalTasks"]) ].

(** [jobManager.CreateTask]; [commit] is the coordinator's answer to
    Commit, and a transaction that fails leaves nothing behind. *)
Definition CreateTask (commit : option error) (task : Task) (m : jobManager)
    : result TaskStatus * jobManager :=
  let status := newTaskStatus in
  let txn := CreateTask_txn task status in
  match commit with
  | Some err => (Err (WrapError "task write" err), m)
  | None => (Ok status, {| committed := committed m ++ [txn] |})
  end.

End JobManager.

(** Decoders of stored values, from packages outside the sources:
    [RawItem.Unmarshal] into a task and into a string. *)
Class Decoders := {
  Unmarshal_Task : RawItem → result Task;
  Unmarshal_string : RawItem → result string;
}.

Definition jobErrorNs : string := "errors/jobs".

Section Listing.
Context `{Externals} `{Decoders}.

(** The loop of [GetJobErrors], [stacktraces] being the slice built so
    far. *)
Fixpoint GetJobErrors_items (items : list RawItem) (stacktraces : list string)
    : result (list string) :=
  match items with
  | [] => Ok stacktraces
  | item :: rest =>
      match Unmarshal_string item with
      | Err err => Err (WrapError ("unmarshal item " +:+ Key item) err)
      | Ok s => GetJobErrors_items rest (stacktraces ++ [s])
      end
  end.

(** [GetJobErrors]; [scan] is the coordinator's answer to Scan. *)
Definition GetJobErrors (scan : result (list RawItem)) (jobID : string)
    : result (list string) * list CrdCall :=
  let call := Scan (path_Join [jobErrorNs; jobID]) in
  match scan with
  | Err err => (Err err, [call])
  | Ok items => (GetJobErrors_items items [], [call])
  end.

(** The loop of [ListTasks]: [tasks] has one slot per scanned item, nil
    until the loop fills it, and [i] is the index of the item at hand. *)
Fixpoint ListTasks_items (items : list RawItem) (i : nat) (tasks : list (option Task))
    : result (list (option Task)) :=
  match items with
  | [] => Ok tasks
  | item :: rest =>
      match Unmarshal_Task item with
      | Err err => Err (WrapError ("unmarshal " +:+ Key item) err)
      | Ok t => ListTasks_items rest (S i) (<[i := Some t]> tasks)
      end
  end.

(** [ListTasks]; [prefix] is the formatted prefix and [scan] the
    coordinator's answer to Scan. *)
Definition ListTasks (scan : result (list RawItem)) (prefix : string)
    : result (list (option Task)) * list CrdCall :=
  let keyPrefix := path_Join [taskNs; prefix] in
  match scan with
  | Err err => (Err err, [Scan keyPrefix])
  | Ok results =>
      (ListTasks_items results 0 (replicate (length results) None), [Scan keyPrefix])
  end.

End Listing.

End job.

(** * Package worker *)

Module worker.

Record InputOptions := { QueueLength : Z; MaxRecvSize : Z }.
Record OutputOptions := { BufferLength : Z }.

Record Options := {
  ListenHost : string;
  AdvertisedHost : string;
  NodeTags : gmap string string;
  OptInput : InputOptions;
  OptOutput : OutputOptions;
}.

Definition Row := string.

(** Modelled from the spec: [input.Reader] is not part of the sources at
    hand; a bounded queue of rows, here the rows enqueued so far and the
    queue's length. *)
Record Reader := { queue : list Row; queueLength : Z }.

Definition NewReader (queueLength : Z) : Reader :=
  {| queue := []; queueLength := queueLength |}.

(** An executor lives at an address; the registry and local pipes hold
    addresses. *)
Definition addr := nat.

(** An outbound push stream to [psHost] for task [psTaskID]. *)
Record PushStream := { psHost : string; psTaskID : string }.

(** [output.Output]: a local pipe into the input of the executor at an
    address, or a buffered push stream. *)
Inductive Sink :=
| LocalPipe (t : addr)
| BufferedOutput (out : PushStream) (bufferLength : Z).

(** [output.Writer] *)
Record Writer := { partitioner : option string; idToOutput : gmap string Sink }.

(** Modelled from the spec: [TaskExecutor] is not part of the sources at
    hand. It owns a task from construction to terminal status, with its
    input and output; its state moves Pending, Running, then Succeeded or
    Failed. *)
Record TaskExecutor := {
  task : Task;
  function : string;
  Input : Reader;
  ExecOutput : Writer;
  state : job.RunningState;
}.

(** Succeeded and Failed are the terminal states. *)
Definition terminal (s : job.RunningState) : bool :=
  match s with
  | job.Succeeded | job.Failed => true
  | _ => false
  end.

Inductive ReporterCall :=
| ReporterAdd (ref : TaskReference) (ts : job.TaskStatus)
| ReportFailure (ref : TaskReference) (err : error).

Record Worker := {
  nodeManager : node.manager;
  jobManager : job.jobManager;
  jobReporter : list ReporterCall;
  runningTasks : gmap string addr;
  executors : gmap addr TaskExecutor;
  opt : Options;
}.

Definition set_nodeManager (m : node.manager) (w : Worker) : Worker :=
  {| nodeManager := m; jobManager := jobManager w; jobReporter := jobReporter w;
     runningTasks := runningTasks w; executors := executors w; opt := opt w |}.

Definition set_jobManager (m : job.jobManager) (w : Worker) : Worker :=
  {| nodeManager := nodeManager w; jobManager := m; jobReporter := jobReporter w;
     runningTasks := runningTasks w; executors := executors w; opt := opt w |}.

Definition set_jobReporter (r : list ReporterCall) (w : Worker) : Worker :=
  {| nodeManager := nodeManager w; jobManager := jobManager w; jobReporter := r;
     runningTasks := runningTasks w; executors := executors w; opt := opt w |}.

Definition set_runningTasks (r : gmap string addr) (w : Worker) : Worker :=
  {| nodeManager := nodeManager w; jobManager := jobManager w; jobReporter := jobReporter w;
     runningTasks := r; executors := executors w; opt := opt w |}.

Definition set_executors (e : gmap addr TaskExecutor) (w : Worker) : Worker :=
  {| nodeManager := nodeManager w; jobManager := jobManager w; jobReporter := jobReporter w;
     runningTasks := runningTasks w; executors := e; opt := opt w |}.

(** [New] *)
Definition New (o : Options) : Worker :=
  {| nodeManager := node.NewManager
       {| node.ConnectTimeout := 3000000000; node.LivenessProbeInterval := 10000000000;
          node.TLSCertPath := ""; node.TLSCertServerName := "" |};
     jobManager := {| job.committed := [] |};
     jobReporter := [];
     runningTasks := ∅;
     executors := ∅;
     opt := o |}.

(** [getRunningTask]: the address registered under the task ID, nil when
    there is none. *)
Definition getRunningTask (w : Worker) (taskID : string) : option addr :=
  runningTasks w !! taskID.

(** Modelled from the spec: [node.New] is not part of the sources at
    hand; it builds the record for a host and a type. The ID it picks is
    an argument. *)
Definition node_New (id host : string) (typ : NodeType) : Node :=
  {| ID := id; Host := host; Typ := typ; Tag := ∅ |}.

Definition set_Tag (tags : gmap string string) (n : Node) : Node :=
  {| ID := ID n; Host := Host n; Typ := Typ n; Tag := tags |}.

(** What the world answers during [Start]. *)
Record StartEnv := {
  listen : result TCPAddr;       (* net.Listen *)
  newNodeID : string;            (* the ID node.New picks *)
  grant : result LeaseID;        (* coordinator GrantLease *)
  put : option error;            (* coordinator Put *)
  serve : option error;          (* what server.Serve returns in the end *)
}.

(** What the world answers during one [createTask]. *)
Record TaskEnv := {
  commit : option error;                                (* coordinator Commit *)
  mapRange : gmap string string → list (string * string); (* order of range over a map *)
  dial : string → string → option error;                (* output.NewPushStream host taskID *)
  newExecutor : option error;                           (* NewTaskExecutor *)
  reportFailure : option error;                         (* jobReporter.ReportFailure *)
}.

(** [lrmrpb.CreateTasksRequest] *)
Record CreateTasksRequest := {
  ReqJobId : string;
  ReqJobName : string;
  ReqStage : string;
  PartitionIDs : list string;
  Broadcasts : gmap string string;
  PartitionToHost : gmap string string;
}.

(** [lrmrpb.DataHeader] *)
Record DataHeader := { TaskID : string; FromHost : string }.

(** An inbound push stream as the handler sees it: the header its
    metadata parses to, the row batches received before the stream ends,
    how it ends (nil for a half-close), and what SendAndClose answers. *)
Record PushDataServer := {
  DataHeaderFromMetadata : result DataHeader;
  frames : list (list Row);
  recvErr : option error;
  SendAndClose : option error;
}.

(** How the executor's run ends, if it does: with the error of the user
    function, or nil. *)
Inductive Run := NeverFinishes | Finishes (err : option error).

(** A call that may never return. *)
Inductive Blocking (A : Type) := Returns (a : A) | Blocks.
Arguments Returns {A} a.
Arguments Blocks {A}.

Definition set_Input (r : Reader) (e : TaskExecutor) : TaskExecutor :=
  {| task := task e; function := function e; Input := r;
     ExecOutput := ExecOutput e; state := state e |}.

Definition set_state (s : job.RunningState) (e : TaskExecutor) : TaskExecutor :=
  {| task := task e; function := function e; Input := Input e;
     ExecOutput := ExecOutput e; state := s |}.

(** Modelled from the spec: [Reader] enqueue, not part of the sources at
    hand; rows join the queue in order and none is dropped. *)
Definition Enqueue (rows : list Row) (r : Reader) : Reader :=
  {| queue := queue r ++ rows; queueLength := queueLength r |}.

(** Modelled from the spec: [input.PushStream.Dispatch], not part of the
    sources at hand; it reads the framed row batches of the stream into
    the executor's input and returns how the stream ended. *)
Definition Dispatch (stream : PushDataServer) (exec : addr) (w : Worker)
    : option error * Worker :=
  (recvErr stream,
   set_executors (alter (λ e, set_Input (Enqueue (concat (frames stream)) (Input e)) e)
                        exec (executors w)) w).

(** Modelled from the spec: the end of an executor's run, which is not
    part of the sources at hand; Running becomes Succeeded when the
    function returns nil and Failed when it returns an error or panics,
    and terminal states are sticky. *)
Definition finish (run : Run) (e : TaskExecutor) : Blocking TaskExecutor :=
  if terminal (state e) then Returns e
  else match run with
       | NeverFinishes => Blocks
       | Finishes None => Returns (set_state job.Succeeded e)
       | Finishes (Some _) => Returns (set_state job.Failed e)
       end.

(** Modelled from the spec: [TaskExecutor.WaitForFinish], not part of the
    sources at hand; it blocks until the executor has reached terminal
    status. Waiting on an address that holds no executor never returns;
    the registry of a worker only holds addresses of executors. *)
Definition WaitForFinish (run : Run) (exec : addr) (w : Worker) : Blocking Worker :=
  match executors w !! exec with
  | None => Blocks
  | Some e =>
      match finish run e with
      | Blocks => Blocks
      | Returns e' => Returns (set_executors (<[exec := e']> (executors w)) w)
      end
  end.

Section Worker.
Context `{Externals}.

(** [Start]; it returns once [Serve] does. *)
Definition Start (env : StartEnv) (w : Worker) : option error * Worker * list CrdCall :=
  match listen env with
  | Err err => (Some err, w, [])
  | Ok lis =>
      let advHost := AdvertisedHost (opt w) in
      let advHost :=
        if HasSuffix advHost ":" then
          (* port is assigned automatically *)
          let addrFrags := Split (TCPAddr_String lis) ":" in
          advHost +:+ List.last addrFrags EmptyString
        else advHost in
      let n := node_New (newNodeID env) advHost NodeWorker in
      let n := set_Tag (NodeTags (opt w)) n in
      match node.RegisterSelf (grant env) (put env) n (nodeManager w) with
      | (Some err, m, calls) =>
          (Some (WrapError "register worker" err), set_nodeManager m w, calls)
      | (None, m, calls) => (serve env, set_nodeManager m w, calls)
      end
  end.

(** The loop of [newOutputWriter] over the entries of the partition map,
    in the order the range visits them. *)
Fixpoint newOutputWriter_range (env : TaskEnv) (w : Worker) (jobID : string) (cur : Stage)
    (entries : list (string * string)) (idToOutput : gmap string Sink)
    : outcome (gmap string Sink) :=
  match entries with
  | [] => Return idToOutput
  | (id, host) :: rest =>
      let taskID := path_Join [jobID; OutStage (Output cur); id] in
      let remote :=
        match dial env host taskID with
        | Some err => Fail err
        | None =>
            let out := {| psHost := host; psTaskID := taskID |} in
            newOutputWriter_range env w jobID cur rest
              (<[id := BufferedOutput out (BufferLength (OptOutput (opt w)))]> idToOutput)
        end in
      match node.Self (nodeManager w) with
      | None => Panic nil_dereference
      | Some self =>
          if String.eqb host (Host self) then
            match getRunningTask w taskID with
            | Some t =>
                newOutputWriter_range env w jobID cur rest (<[id := LocalPipe t]> idToOutput)
            | None => remote
            end
          else remote
      end
  end.

(** [newOutputWriter], given the order in which the range visits the
    partition map. *)
Definition newOutputWriter (env : TaskEnv) (w : Worker) (jobID : string) (cur : Stage)
    (entries : list (string * string)) : outcome Writer :=
  match newOutputWriter_range env w jobID cur entries ∅ with
  | Return m => Return {| partitioner := Partitioner (Output cur); idToOutput := m |}
  | Fail err => Fail err
  | Panic why => Panic why
  end.

(** [createTask] *)
Definition createTask (env : TaskEnv) (req : CreateTasksRequest) (partitionID : string)
    (s : Stage) (broadcasts : gmap string string) (w : Worker) : outcome unit * Worker :=
  match node.Self (nodeManager w) with
  | None => (Panic nil_dereference, w)
  | Some self =>
      let task := NewTask partitionID self (ReqJobId req) s in
      match job.CreateTask (commit env) task (jobManager w) with
      | (Err err, jm) =>
          (Fail (StatusError Internal ("create task failed: " +:+ error_text err)),
           set_jobManager jm w)
      | (Ok ts, jm) =>
          let w := set_jobManager jm w in
          let w := set_jobReporter (jobReporter w ++ [ReporterAdd (Reference task) ts]) w in
          let in_ := NewReader (QueueLength (OptInput (opt w))) in
          match newOutputWriter env w (ReqJobId req) s (mapRange env (PartitionToHost req)) with
          | Panic why => (Panic why, w)
          | Fail err =>
              (Fail (StatusError Internal ("unable to create output: " +:+ error_text err)), w)
          | Return out =>
              match newExecutor env with
              | Some err =>
                  let err := WrapError "failed to start executor" err in
                  let w := set_jobReporter
                             (jobReporter w ++ [ReportFailure (Reference task) err]) w in
                  match reportFailure env with
                  | Some reportErr => (Fail reportErr, w)
                  | None => (Fail err, w)
                  end
              | None =>
                  let exec := {| task := task; function := Function s; Input := in_;
                                 ExecOutput := out; state := job.Pending |} in
                  let a : addr := fresh (dom (executors w)) in
                  let w := set_executors (<[a := exec]> (executors w)) w in
                  let w := set_runningTasks
                             (<[TaskReference_String (Reference task) := a]> (runningTasks w)) w in
                  (* go exec.Run() *)
                  let w := set_executors (alter (set_state job.Running) a (executors w)) w in
                  (Return tt, w)
              end
          end
      end
  end.

(** The goroutines of the errgroup, run one after the other in the order
    [sched] in which they complete; [first] is the first error any of
    them returned, which is what Wait gives back. A goroutine that
    faults takes the process down. *)
Fixpoint errgroup (env : nat → TaskEnv) (req : CreateTasksRequest) (s : Stage)
    (broadcasts : gmap string string) (sched : list (nat * string)) (w : Worker)
    (first : option error) : outcome (option error) * Worker :=
  match sched with
  | [] => (Return first, w)
  | (i, partitionID) :: rest =>
      match createTask (env i) req partitionID s broadcasts w with
      | (Panic why, w') => (Panic why, w')
      | (Return _, w') => errgroup env req s broadcasts rest w' first
      | (Fail err, w') =>
          errgroup env req s broadcasts rest w'
            (match first with None => Some err | Some _ => first end)
      end
  end.

(** [CreateTasks]; [sched] lists the partitions of the request, each
    with its position in [PartitionIDs], in the order in which their
    goroutines run. *)
Definition CreateTasks (env : nat → TaskEnv) (sched : list (nat * string))
    (req : CreateTasksRequest) (w : Worker) : outcome unit * Worker :=
  match Stage_UnmarshalJSON (ReqStage req) with
  | Err err =>
      (Fail (StatusError InvalidArgument ("invalid stage JSON: " +:+ error_text err)), w)
  | Ok s =>
      match DeserializeBroadcast (Broadcasts req) with
      | Err err => (Fail (StatusError InvalidArgument (error_text err)), w)
      | Ok broadcasts =>
          match errgroup env req s broadcasts sched w None with
          | (Panic why, w') => (Panic why, w')
          | (Fail err, w') => (Fail err, w')
          | (Return (Some err), w') => (Fail err, w')
          | (Return None, w') => (Return tt, w')
          end
      end
  end.

(** [PushData]; the deferred function removes the registry entry on
    every return that follows the lookup. *)
Definition PushData (stream : PushDataServer) (run : Run) (w : Worker)
    : Blocking (option error * Worker) :=
  match DataHeaderFromMetadata stream with
  | Err err => Returns (Some (StatusError InvalidArgument (error_text err)), w)
  | Ok h =>
      match getRunningTask w (TaskID h) with
      | None =>
          Returns (Some (StatusError InvalidArgument ("task not found: " +:+ TaskID h)), w)
      | Some exec =>
          let deferred (w : Worker) :=
            set_runningTasks (delete (TaskID h) (runningTasks w)) w in
          let (err, w) := Dispatch stream exec w in
          match err with
          | Some err => Returns (Some err, deferred w)
          | None =>
              match WaitForFinish run exec w with
              | Blocks => Blocks
              | Returns w => Returns (SendAndClose stream, deferred w)
              end
          end
      end
  end.

(** An inbound poll stream as the handler sees it: the header its
    metadata parses to. *)
Record PollDataServer := { PollHeaderFromMetadata : result DataHeader }.

(** [PollData] *)
Definition PollData (stream : PollDataServer) (w : Worker) : outcome unit :=
  match PollHeaderFromMetadata stream with
  | Err err => Fail (StatusError InvalidArgument (error_text err))
  | Ok h =>
      match getRunningTask w (TaskID h) with
      | None => Fail (StatusError InvalidArgument ("task not found: " +:+ TaskID h))
      | Some exec => Panic "implement me"
      end
  end.

(** [Stop]; [del] is the coordinator's answer to Delete. Stopping the
    gRPC server and closing the job reporter leave the worker's own
    fields as they are. *)
Definition Stop (del : result Z) (w : Worker) : outcome unit * Worker * list CrdCall :=
  match node.Self (nodeManager w) with
  | None => (Panic nil_dereference, w, [])
  | Some self =>
      match node.UnregisterNode del (ID self) (nodeManager w) with
      | (Fail err, m, calls) =>
          (Fail (WrapError "unregister node" err), set_nodeManager m w, calls)
      | (Panic why, m, calls) => (Panic why, set_nodeManager m w, calls)
      | (Return _, m, calls) =>
          let (err, m) := node.Close m in
          (match err with Some err => Fail err | None => Return tt end,
           set_nodeManager m w, calls)
      end
  end.

End Worker.

End worker.

(** * Package lrmr: a running job *)

Module lrmr.

(** [job.Status] of a job: its state and the errors of its tasks. *)
Record JobStatus := { Status : job.RunningState; Errors : list error }.

(** [RunningJob], by the ID of its job and the final status it has
    received. *)
Record RunningJob := { JobID : string; finalStatus : option JobStatus }.

Definition Aborted : error := PlainError "job aborted".

(** Which case of a select comes first: the job tracker delivers the
    status the job completed with, or a termination signal arrives. *)
Inductive Event := Completed (st : JobStatus) | Signalled.

(** [RunningJob.Status] *)
Definition RunningJob_Status (r : RunningJob) : job.RunningState :=
  match finalStatus r with
  | None => job.Running
  | Some st => Status st
  end.

(** [RunningJob.Abort]; [report] is what ReportFailure answers and
    [ev] the case of the select that comes first. *)
Definition Abort (report : option error) (ev : Event) (r : RunningJob)
    : error * list worker.ReporterCall * list node.LogLine :=
  let ref := {| RefJobID := JobID r; RefStageName := "__input"; RefTaskID := "__master" |} in
  let reported := [worker.ReportFailure ref Aborted] in
  match report with
  | Some err => (WrapError "abort" err, reported, [])
  | None =>
      (Aborted, reported,
       match ev with
       | Completed _ => [node.LogInfo "Cancelled!" []]
       | Signalled => [node.LogError "Terminated" []]
       end)
  end.

(** [RunningJob.Wait]; [ev] is the case of its select that comes first,
    [report] and [ev'] are for the Abort of an interrupted wait. Return
    is a nil error. *)
Definition Wait (ev : Event) (report : option error) (ev' : Event) (r : RunningJob)
    : outcome unit * RunningJob * list worker.ReporterCall * list node.LogLine :=
  match ev with
  | Completed st =>
      let r := {| JobID := JobID r; finalStatus := Some st |} in
      match Status st with
      | job.Failed =>
          match Errors st with
          | err :: _ => (Fail err, r, [], [])
          | [] => (Panic "index out of range [0] with length 0", r, [], [])
          end
      | _ => (Return tt, r, [], [])
      end
  | Signalled =>
      let '(err, reported, lines) := Abort report ev' r in
      (Fail err, r, reported, node.LogInfo "Canceling jobs" [] :: lines)
  end.

End lrmr.

(** * Package testutils *)

Module testutils.

Section Values.
(** [Row.UnmarshalValue] into a string that holds the zero value: what
    the string holds afterwards, and the error. *)
Context {Row : Type} (UnmarshalValue : Row → string * option error).

(** [StringValue]: the error of the decoder is dropped. *)
Definition StringValue (row : Row) : string := (UnmarshalValue row).1.

(** The loop of [StringValues], [ss] being the slice built so far. *)
Fixpoint StringValues_range (rows : list Row) (ss : list string) : list string :=
  match rows with
  | [] => ss
  | row :: rest => StringValues_range rest (ss ++ [StringValue row])
  end.

Definition StringValues (rows : list Row) : list string := StringValues_range rows [].

End Values.

End testutils.

(** * Notions the statements use *)

(** A channel after a Close that succeeded. *)
Definition shut (kv : string * node.ClientConn) : string * node.ClientConn :=
  (kv.1, {| node.target := node.target kv.2; node.connState := node.Shutdown;
            node.closeErr := None |}).

(** The registry only holds addresses of executors in the store. *)
Definition registry_sound (w : worker.Worker) : Prop :=
  ∀ taskID a, worker.runningTasks w !! taskID = Some a → is_Some (worker.executors w !! a).

(** A tick of the refresher fails when the lease is refused or the put
    fails. *)
Definition tick_failed (tick : result LeaseID * option error) : bool :=
  match tick with
  | (Ok _, None) => false
  | _ => true
  end.

Definition is_GrantLease (call : CrdCall) : bool :=
  match call with GrantLease _ => true | _ => false end.

(** An entry of the partition map for which [newOutputWriter] gets a
    sink: its downstream task runs on this worker, or the push stream to
    its host can be opened. *)
Definition opens `{Externals} (env : worker.TaskEnv) (w : worker.Worker) (self : Node)
    (jobID : string) (cur : Stage) (entry : string * string) : Prop :=
  let taskID := path_Join [jobID; OutStage (Output cur); entry.1] in
  (entry.2 = Host self ∧ is_Some (worker.getRunningTask w taskID)) ∨
  worker.dial env entry.2 taskID = None.

(** The registry of the worker resolves the reference of the partition
    of a job's stage to an executor of that partition that is running. *)
Definition serves (w : worker.Worker) (jobID stage partitionID : string) : Prop :=
  ∃ (a : worker.addr) (exec : worker.TaskExecutor),
    worker.getRunningTask w (jobID +:+ "/" +:+ stage +:+ "/" +:+ partitionID) = Some a ∧
    worker.executors w !! a = Some exec ∧
    PartitionID (worker.task exec) = partitionID ∧
    worker.state exec = job.Running.

Section Notions.
Context `{Externals}.
Import worker.

(** The sink [newOutputWriter] picks for an entry of the partition map,
    [self] being the worker's own node. *)
Definition sink_for (w : Worker) (self : Node) (jobID : string) (cur : Stage)
    (id host : string) : Sink :=
  let taskID := path_Join [jobID; OutStage (Output cur); id] in
  let remote := BufferedOutput {| psHost := host; psTaskID := taskID |}
                  (BufferLength (OptOutput (opt w))) in
  if String.eqb host (Host self) then
    match getRunningTask w taskID with
    | Some t => LocalPipe t
    | None => remote
    end
  else remote.

(** One entry per goroutine of [errgroup] that ran: the partition, with
    its position in the request, and the worker before and after. *)
Fixpoint steps (env : nat → TaskEnv) (req : CreateTasksRequest) (s : Stage)
    (broadcasts : gmap string string) (sched : list (nat * string)) (w : Worker)
    : list (nat * string * Worker * Worker) :=
  match sched with
  | [] => []
  | (i, partitionID) :: rest =>
      match createTask (env i) req partitionID s broadcasts w with
      | (Panic _, w') => [(i, partitionID, w, w')]
      | (_, w') => (i, partitionID, w, w') :: steps env req s broadcasts rest w'
      end
  end.

(** Between [before] and [after] the task of the partition was persisted
    and its executor was constructed, recorded in the registry under the
    task's reference, and started. *)
Definition created (req : CreateTasksRequest) (s : Stage) (partitionID : string)
    (before after : Worker) : Prop :=
  ∃ (self : Node) (a : addr) (exec : TaskExecutor),
    node.Self (nodeManager before) = Some self ∧
    let t := NewTask partitionID self (ReqJobId req) s in
    job.committed (jobManager after) =
      job.committed (jobManager before) ++ [job.CreateTask_txn t job.newTaskStatus] ∧
    executors before !! a = None ∧
    executors after = <[a := exec]> (executors before) ∧
    task exec = t ∧ state exec = job.Running ∧
    runningTasks after = <[TaskReference_String (Reference t) := a]> (runningTasks before).

End Notions.

(** * A small world to run the handlers in *)

Module example.
Import worker.

(** Joins the non-empty elements with a slash, as [path.Join] does for
    elements that need no cleaning. *)
Definition Join (elems : list string) : string :=
  String.concat "/" (List.filter (λ e, negb (String.eqb e "")) elems).

(** A record whose value is [master] or [worker] decodes to a node of
    that type whose ID and host are the last part of the key. *)
Definition Unmarshal (item : RawItem) : result Node :=
  let name := List.last (Split (Key item) "/") "" in
  if String.eqb (Value item) "master" then Ok (node_New name name Master)
  else if String.eqb (Value item) "worker" then Ok (node_New name name NodeWorker)
  else Err (PlainError "invalid character").

(** A stage given by its name alone, sending its output to stage [next];
    the empty document does not decode. *)
Definition UnmarshalStage (raw : string) : result Stage :=
  if String.eqb raw "" then Err (PlainError "unexpected end of JSON input")
  else Ok {| Name := raw; Function := "identity";
             Output := {| OutStage := "next"; Partitioner := None |} |}.

#[export] Instance externals : Externals := {|
  path_Join := Join;
  RawItem_Unmarshal := Unmarshal;
  Stage_UnmarshalJSON := UnmarshalStage;
  DeserializeBroadcast := λ raw, Ok raw;
  Task_ID := λ t, TaskReference_String (Reference t);
|}.

Definition ErrClientConnClosing : error :=
  PlainError "grpc: the client connection is closing".

Definition options : Options :=
  {| ListenHost := "127.0.0.1:0"; AdvertisedHost := "10.0.0.7:";
     NodeTags := ∅;
     OptInput := {| QueueLength := 100; MaxRecvSize := 67108864 |};
     OptOutput := {| BufferLength := 1000 |} |}.

Definition self : Node := node_New "w1" "10.0.0.7:41833" NodeWorker.

(** A worker that has registered itself. *)
Definition started : Worker :=
  set_nodeManager
    (node.set_livenessProveTick (Some {| node.period := 10000000000; node.stopped := false |})
       (node.set_self (Some self) (nodeManager (New options))))
    (New options).

(** An environment in which nothing fails. *)
Definition calm : TaskEnv :=
  {| commit := None; mapRange := map_to_list; dial := λ _ _, None;
     newExecutor := None; reportFailure := None |}.

Definition request (stage : string) (partitions : list string) (out : gmap string string)
    : CreateTasksRequest :=
  {| ReqJobId := "J1"; ReqJobName := "wordcount"; ReqStage := stage;
     PartitionIDs := partitions; Broadcasts := ∅; PartitionToHost := out |}.

Definition stream (taskID : string) (rows : list (list Row)) (recv : option error)
    : PushDataServer :=
  {| DataHeaderFromMetadata := Ok {| TaskID := taskID; FromHost := "10.0.0.8:7466" |};
     frames := rows; recvErr := recv; SendAndClose := None |}.

(** The executor of the downstream task J1/next/0, at address 0. *)
Definition downstream : TaskExecutor :=
  {| task := {| JobID := "J1"; StageName := "next"; PartitionID := "0"; NodeID := "w1" |};
     function := "identity";
     Input := NewReader 100;
     ExecOutput := {| partitioner := None; idToOutput := ∅ |};
     state := job.Running |}.

(** A registered worker on which that executor runs. *)
Definition running : Worker :=
  set_runningTasks {[ "J1/next/0" := 0 ]} (set_executors {[ 0 := downstream ]} started).

(** The same worker once a push stream with rows a, b, c for J1/next/0
    has been acknowledged. *)
Definition acknowledged : Worker :=
  set_runningTasks ∅
    (set_executors
       {[ 0 := set_state job.Succeeded
                 (set_Input (Enqueue ["a"; "b"; "c"] (Input downstream)) downstream) ]}
       started).

(** And once a push stream that broke after rows a, b has been given up. *)
Definition broken : Worker :=
  set_runningTasks ∅
    (set_executors
       {[ 0 := set_Input (Enqueue ["a"; "b"] (Input downstream)) downstream ]}
       started).

Definition ErrReset : error := PlainError "stream terminated by RST_STREAM".

(** A partition map with one partition on this worker and one on a peer. *)
Definition plan : gmap string string :=
  {[ "0" := "10.0.0.7:41833"; "1" := "10.0.0.9:7466" ]}.

(** A manager whose first cached channel has been closed by its user
    already, and whose second one is in use. *)
Definition cached : node.manager :=
  node.set_conns
    [ ("10.0.0.8:7466", {| node.target := "10.0.0.8:7466"; node.connState := node.Shutdown;
                           node.closeErr := Some ErrClientConnClosing |});
      ("10.0.0.9:7466", {| node.target := "10.0.0.9:7466"; node.connState := node.Ready;
                           node.closeErr := None |}) ]
    (nodeManager started).

(** An environment in which the executor cannot be constructed. *)
Definition unconstructible (xerr : error) : TaskEnv :=
  {| commit := None; mapRange := map_to_list; dial := λ _ _, None;
     newExecutor := Some xerr; reportFailure := None |}.

Definition listening : StartEnv :=
  {| listen := Ok {| IP := "127.0.0.1"; Port := 41833 |}; newNodeID := "w1";
     grant := Ok 7%Z; put := None; serve := None |}.

(** A task stored as JobID/StageName/PartitionID decodes to that task
    on node w1; anything else does not decode. *)
Definition UnmarshalTask (item : RawItem) : result Task :=
  match Split (Value item) "/" with
  | [j; s; p] => Ok {| JobID := j; StageName := s; PartitionID := p; NodeID := "w1" |}
  | _ => Err (PlainError "invalid character")
  end.

(** A stored string decodes to itself unless it is empty. *)
Definition UnmarshalString (item : RawItem) : result string :=
  if String.eqb (Value item) "" then Err (PlainError "unexpected end of JSON input")
  else Ok (Value item).

#[export] Instance decoders : job.Decoders := {|
  job.Unmarshal_Task := UnmarshalTask;
  job.Unmarshal_string := UnmarshalString;
|}.

(** A row decodes to its text; the row [?] does not decode and leaves
    the string empty. *)
Definition UnmarshalValue (row : string) : string * option error :=
  if String.eqb row "?" then ("", Some (PlainError "invalid character")) else (row, None).

(** A channel to a peer as a dial returns it. *)
Definition ready : node.ClientConn :=
  {| node.target := "10.0.0.9:7466"; node.connState := node.Ready; node.closeErr := None |}.

(** A manager whose one cached channel is in TransientFailure. *)
Definition failing : node.manager :=
  node.set_conns
    [ ("10.0.0.9:7466", {| node.target := "10.0.0.9:7466";
                           node.connState := node.TransientFailure;
                           node.closeErr := None |}) ]
    (nodeManager started).

(** A manager with that channel replaced by [ready]. *)
Definition connected : node.manager :=
  node.set_conns [("10.0.0.9:7466", ready)] (nodeManager started).

(** Three ticks: the lease is refused, the put fails, both succeed. *)
Definition ticks : list (result LeaseID * option error) :=
  [ (Err ErrReset, None); (Ok 8%Z, Some ErrReset); (Ok 9%Z, None) ].

(** The stage that [UnmarshalStage] decodes [map] to. *)
Definition map_stage : Stage :=
  {| Name := "map"; Function := "identity";
     Output := {| OutStage := "next"; Partitioner := None |} |}.

(** An environment in which no push stream can be opened. *)
Definition unreachable : TaskEnv :=
  {| commit := None; mapRange := map_to_list; dial := λ _ _, Some ErrReset;
     newExecutor := None; reportFailure := None |}.

End example.

(** * The node manager *)

Section ManagerFacts.
Context `{Externals}.

(** ** List *)

Lemma List_items_decoded (typ : NodeType) (items : list RawItem) (nodes nn : list Node) :
  Forall2 (λ item n, RawItem_Unmarshal item = Ok n) items nodes →
  node.List_items items typ nn = Ok (nn ++ filter (λ n, Typ n = typ) nodes).
Proof.
  intros Hdec. revert nn.
  induction Hdec as [|item n items nodes Hitem _ IH]; intros nn; simpl.
  - by rewrite app_nil_r.
  - rewrite Hitem. rewrite filter_cons.
    destruct (decide (Typ n = typ)) as [Heq|Hne].
    + rewrite IH. by rewrite <- app_assoc.
    + apply IH.
Qed.

Lemma List_items_undecodable (typ : NodeType) (items : list RawItem) (nn : list Node) :
  Exists (λ item, ∃ err, RawItem_Unmarshal item = Err err) items →
  ∃ item err, item ∈ items ∧ RawItem_Unmarshal item = Err err ∧
    node.List_items items typ nn = Err (WrapError ("unmarshal item " +:+ Key item) err).
Proof.
  intros Hbad. revert nn.
  induction items as [|item items IH]; intros nn.
  - inversion Hbad.
  - simpl. destruct (RawItem_Unmarshal item) as [n|err] eqn:Hitem.
    + assert (Hrest : Exists (λ item, ∃ err, RawItem_Unmarshal item = Err err) items).
      { apply Exists_cons in Hbad as [[err Herr]|Hrest]; [congruence|done]. }
      destruct (decide (Typ n = typ)).
      * destruct (IH Hrest (nn ++ [n])) as (bad & err & Hin & Hdec & Hres).
        exists bad, err. split_and!; [apply elem_of_cons; by right|done|done].
      * destruct (IH Hrest nn) as (bad & err & Hin & Hdec & Hres).
        exists bad, err. split_and!; [apply elem_of_cons; by right|done|done].
    + exists item, err. split_and!; [apply elem_of_cons; by left|done|done].
Qed.

(** C10. Over the records a scan of the nodes prefix returned: when any
    of them fails to unmarshal, whatever its node type, List returns an
    error and no node; when all of them unmarshal, List returns exactly
    the nodes of the requested type, in scan order. *)
Theorem List_all_or_nothing (items : list RawItem) (typ : NodeType) :
  (Exists (λ item, ∃ err, RawItem_Unmarshal item = Err err) items →
     ∃ err, (node.List (Ok items) typ).1 = Err err) ∧
  (∀ nodes : list Node,
     Forall2 (λ item n, RawItem_Unmarshal item = Ok n) items nodes →
     (node.List (Ok items) typ).1 = Ok (filter (λ n, Typ n = typ) nodes)).
Proof.
  split.
  - intros Hbad.
    destruct (List_items_undecodable typ items [] Hbad) as (item & err & _ & _ & Hres).
    unfold node.List. simpl. rewrite Hres. eauto.
  - intros nodes Hdec. unfold node.List. simpl.
    by rewrite (List_items_decoded typ items nodes [] Hdec).
Qed.

(** A scan that fails is reported as such. *)
Lemma List_scan_error (err : error) (typ : NodeType) :
  node.List (Err err) typ = (Err (WrapError "scan etcd" err), [Scan node.nodeNs]).
Proof. reflexivity. Qed.

(** ** UnregisterNode *)

(** C9, as amended. Before RegisterSelf has completed ([self] is nil),
    UnregisterNode with any node ID first asks the coordinator to delete
    the key: when the delete succeeds it then dereferences the nil self
    node and panics; when the delete fails it returns the error and does
    not panic. *)
Theorem UnregisterNode_before_RegisterSelf (del : result Z) (nid : string) (m : node.manager) :
  node.self m = None →
  node.UnregisterNode del nid m =
    (match del with
     | Ok _ => Panic nil_dereference
     | Err err => Fail (PlainError ("failed to remove from etcd: " +:+ error_text err))
     end, m, [Delete (path_Join [node.nodeNs; nid])]).
Proof.
  intros Hself. unfold node.UnregisterNode. rewrite Hself. by destruct del.
Qed.

(** ** Close *)

Lemma Range_Close_all (cs : list (string * node.ClientConn)) (err : option error) :
  Forall (λ kv, node.closeErr kv.2 = None) cs →
  node.Range_Close cs err = (shut <$> cs, match cs with [] => err | _ => None end).
Proof.
  intros Hok. revert err.
  induction Hok as [|[k v] cs Hv _ IH]; intros err; [done|].
  simpl in *. unfold node.ClientConn_Close. rewrite Hv.
  rewrite IH. unfold shut at 2. simpl. by destruct cs.
Qed.

Lemma Range_Close_first_error (pre post : list (string * node.ClientConn))
    (k : string) (v : node.ClientConn) (e : error) (err : option error) :
  Forall (λ kv, node.closeErr kv.2 = None) pre →
  node.closeErr v = Some e →
  node.Range_Close (pre ++ (k, v) :: post) err = ((shut <$> pre) ++ (k, v) :: post, Some e).
Proof.
  intros Hok Hv. revert err.
  induction Hok as [|[k' v'] pre Hv' _ IH]; intros err; simpl in *.
  - unfold node.ClientConn_Close. by rewrite Hv.
  - unfold node.ClientConn_Close. rewrite Hv'. by rewrite IH.
Qed.

(** C7, as amended. Close visits the cached channels in Range order and
    closes them up to the first whose Close fails: when no Close fails
    every cached channel ends up shut down and Close returns nil; when
    one fails, Close returns that first error, the channels before it
    are shut down, and the channels after it are left as they were. *)
Theorem Close_until_first_error (m : node.manager) :
  (Forall (λ kv, node.closeErr kv.2 = None) (node.conns m) →
     node.Close m = (None, node.set_conns (shut <$> node.conns m) m)) ∧
  (∀ pre k v post e,
     node.conns m = pre ++ (k, v) :: post →
     Forall (λ kv, node.closeErr kv.2 = None) pre →
     node.closeErr v = Some e →
     node.Close m = (Some e, node.set_conns ((shut <$> pre) ++ (k, v) :: post) m)).
Proof.
  split.
  - intros Hok. unfold node.Close. rewrite (Range_Close_all _ None Hok).
    by destruct (node.conns m).
  - intros pre k v post e Hconns Hok Hv. unfold node.Close.
    by rewrite Hconns, (Range_Close_first_error pre post k v e None Hok Hv).
Qed.

End ManagerFacts.

(** * The worker: inbound push streams *)

Section PushDataFacts.
Context `{Externals}.
Import worker.

Lemma Dispatch_runningTasks (stream : PushDataServer) (exec : addr) (w : Worker) :
  runningTasks (Dispatch stream exec w).2 = runningTasks w.
Proof. reflexivity. Qed.

Lemma finish_terminal (run : Run) (e e' : TaskExecutor) :
  finish run e = Returns e' → terminal (state e') = true.
Proof.
  unfold finish. destruct (terminal (state e)) eqn:Hterm.
  - intros [= <-]. exact Hterm.
  - destruct run as [|[err|]]; [done| |]; by intros [= <-].
Qed.

Lemma WaitForFinish_returns (run : Run) (exec : addr) (w w' : Worker) :
  WaitForFinish run exec w = Returns w' →
  runningTasks w' = runningTasks w ∧
  ∃ e, executors w' !! exec = Some e ∧ terminal (state e) = true.
Proof.
  unfold WaitForFinish. destruct (executors w !! exec) as [e|]; [|done].
  destruct (finish run e) as [e'|] eqn:Hfin; [|done].
  intros [= <-]. split; [done|]. exists e'. split.
  - simpl. apply lookup_insert_eq.
  - by eapply finish_terminal.
Qed.

(** C1. When the header of a push stream names a registered task, every
    return of PushData leaves the registry without that task's entry
    (and otherwise as it was), and a return with a nil error, the
    acknowledgement, only happens with the receiving executor in a
    terminal state. *)
Theorem PushData_acknowledges_after_finish (stream : PushDataServer) (run : Run)
    (w w' : Worker) (h : DataHeader) (exec : addr) (err : option error) :
  DataHeaderFromMetadata stream = Ok h →
  getRunningTask w (TaskID h) = Some exec →
  PushData stream run w = Returns (err, w') →
  runningTasks w' = delete (TaskID h) (runningTasks w) ∧
  getRunningTask w' (TaskID h) = None ∧
  (err = None →
     ∃ e, executors w' !! exec = Some e ∧ terminal (state e) = true).
Proof.
  intros Hh Hexec. unfold PushData. rewrite Hh, Hexec.
  destruct (Dispatch stream exec w) as [derr w1] eqn:Hdis.
  pose proof (Dispatch_runningTasks stream exec w) as Hreg. rewrite Hdis in Hreg. simpl in Hreg.
  destruct derr as [derr|].
  - intros [= <- <-]. unfold getRunningTask. simpl. rewrite Hreg.
    split_and!; [done|apply lookup_delete_eq|done].
  - destruct (WaitForFinish run exec w1) as [w2|] eqn:Hwait; [|done].
    apply WaitForFinish_returns in Hwait as (Hreg2 & e & He & Hterm).
    intros [= <- <-]. unfold getRunningTask. simpl. rewrite Hreg2, Hreg.
    split_and!; [done|apply lookup_delete_eq|]. intros _. by exists e.
Qed.

(** The acknowledgement does happen: on a stream that ends with a
    half-close, for an executor that finishes, PushData returns what
    SendAndClose answers. *)
Lemma PushData_returns (stream : PushDataServer) (ferr : option error)
    (w : Worker) (h : DataHeader) (exec : addr) (e : TaskExecutor) :
  DataHeaderFromMetadata stream = Ok h →
  getRunningTask w (TaskID h) = Some exec →
  executors w !! exec = Some e →
  recvErr stream = None →
  ∃ w', PushData stream (Finishes ferr) w = Returns (SendAndClose stream, w').
Proof.
  intros Hh Hexec He Hrecv. unfold PushData. rewrite Hh, Hexec.
  unfold Dispatch. rewrite Hrecv. unfold WaitForFinish. simpl.
  rewrite lookup_alter_eq, He. simpl.
  match goal with |- context [finish ?r ?x] => destruct (finish r x) as [e'|] eqn:Hfin end.
  - eauto.
  - unfold finish in Hfin. destruct (terminal _); [done|]. by destruct ferr.
Qed.

(** C2. When the header of a push stream names a task that the registry
    does not hold, PushData fails with code InvalidArgument and the
    worker is left exactly as it was: no registry entry added or removed,
    no row enqueued. *)
Theorem PushData_task_not_found (stream : PushDataServer) (run : Run)
    (w : Worker) (h : DataHeader) :
  DataHeaderFromMetadata stream = Ok h →
  getRunningTask w (TaskID h) = None →
  ∃ err, PushData stream run w = Returns (Some err, w) ∧
         status_Code err = InvalidArgument ∧
         err = StatusError InvalidArgument ("task not found: " +:+ TaskID h).
Proof.
  intros Hh Hexec. unfold PushData. rewrite Hh, Hexec. eauto.
Qed.

(** C8. When the target executor is registered but dispatching the
    stream returns an error, PushData returns that error with the
    executor's entry already removed from the registry, so that a
    further push for the same task reference fails with InvalidArgument,
    task not found. *)
Theorem PushData_dispatch_error_unregisters (stream : PushDataServer) (run : Run)
    (w : Worker) (h : DataHeader) (exec : addr) (err : error) :
  DataHeaderFromMetadata stream = Ok h →
  getRunningTask w (TaskID h) = Some exec →
  recvErr stream = Some err →
  ∃ w', PushData stream run w = Returns (Some err, w') ∧
        getRunningTask w' (TaskID h) = None ∧
        ∀ (retry : PushDataServer) (run' : Run) (h' : DataHeader),
          DataHeaderFromMetadata retry = Ok h' →
          TaskID h' = TaskID h →
          PushData retry run' w' =
            Returns (Some (StatusError InvalidArgument ("task not found: " +:+ TaskID h)), w').
Proof.
  intros Hh Hexec Hrecv. unfold PushData at 1. rewrite Hh, Hexec.
  unfold Dispatch. rewrite Hrecv. eexists. split; [reflexivity|].
  assert (Hgone : ∀ w0 : Worker,
    getRunningTask (set_runningTasks (delete (TaskID h) (runningTasks w0)) w0) (TaskID h) = None).
  { intros w0. unfold getRunningTask. simpl. apply lookup_delete_eq. }
  split; [apply Hgone|].
  intros retry run' h' Hh' Hsame. unfold PushData. rewrite Hh', Hsame.
  by rewrite Hgone.
Qed.

End PushDataFacts.

(** * The worker: Start *)

Section StringFacts.

Lemma append_cons (x : ascii) (a b : string) : String x a +:+ b = String x (a +:+ b).
Proof. reflexivity. Qed.

Lemma append_assoc (a b c : string) : (a +:+ b) +:+ c = a +:+ (b +:+ c).
Proof. induction a as [|x a IH]; [done|]. by rewrite !append_cons, IH. Qed.

Lemma HasSuffix_step (c d : ascii) (r suffix : string) :
  String.length suffix = 1 →
  HasSuffix (String c (String d r)) suffix = HasSuffix (String d r) suffix.
Proof.
  intros Hlen. unfold HasSuffix. rewrite Hlen. simpl. by rewrite Nat.sub_0_r.
Qed.

(** [HasSuffix s ":"] holds exactly of the strings that end in a colon. *)
Lemma HasSuffix_colon (s : string) :
  HasSuffix s ":" = true ↔ ∃ p, s = p +:+ ":".
Proof.
  induction s as [|c s IH].
  - split; [done|]. intros [[|x p] Hp]; discriminate Hp.
  - destruct s as [|d r].
    + unfold HasSuffix. simpl. split.
      * intros Heq. exists "". change ("" +:+ ":") with ":". f_equal.
        destruct (Ascii.eqb c ":") eqn:Hc; [|done]. by apply Ascii.eqb_eq.
      * intros [[|x [|y p]] Hp]; [|discriminate Hp..].
        injection Hp as ->. by rewrite Ascii.eqb_refl.
    + rewrite HasSuffix_step by done. rewrite IH. split.
      * intros [p ->]. by exists (String c p).
      * intros [[|x p] Hp]; [discriminate Hp|].
        rewrite append_cons in Hp. injection Hp as -> Hp. by exists p.
Qed.

Lemma Split_without_separator (p : string) (sep : ascii) :
  ContainsByte p sep = false → Split p sep = [p].
Proof.
  induction p as [|c p IH]; simpl; [done|].
  intros [Hc Hp]%orb_false_elim. by rewrite Hc, (IH Hp).
Qed.

Lemma Split_last_piece (x p : string) :
  ContainsByte p ":" = false →
  ∃ pre, Split (x +:+ ":" +:+ p) ":" = pre ++ [p] ∧ pre ≠ [].
Proof.
  intros Hp. induction x as [|c x (pre & IH & Hne)].
  - exists [EmptyString]. change ("" +:+ ":" +:+ p) with (String ":" p). simpl.
    by rewrite (Split_without_separator p ":" Hp).
  - rewrite append_cons. simpl. destruct (Ascii.eqb c ":").
    + exists (EmptyString :: pre). by rewrite IH.
    + rewrite IH. destruct pre as [|piece pre]; [done|]. simpl.
      by exists (String c piece :: pre).
Qed.

Lemma string_of_uint_no_colon (d : Decimal.uint) :
  ContainsByte (NilEmpty.string_of_uint d) ":" = false.
Proof. induction d; simpl; auto. Qed.

Lemma itoa_no_colon (n : N) : ContainsByte (itoa n) ":" = false.
Proof.
  unfold itoa, NilZero.string_of_uint.
  destruct (N.to_uint n) eqn:E; try done; rewrite <- E; apply string_of_uint_no_colon.
Qed.

(** The last fragment of a listener address is its port. *)
Lemma TCPAddr_last_fragment (lis : TCPAddr) :
  List.last (Split (TCPAddr_String lis) ":") EmptyString = itoa (Port lis).
Proof.
  unfold TCPAddr_String, JoinHostPort.
  destruct (ContainsByte (IP lis) ":").
  - change ("[" +:+ IP lis +:+ "]:" +:+ itoa (Port lis))
      with ("[" +:+ (IP lis +:+ ("]" +:+ ":" +:+ itoa (Port lis)))).
    rewrite <- (append_assoc (IP lis) "]"), <- (append_assoc "[").
    destruct (Split_last_piece ("[" +:+ IP lis +:+ "]") _ (itoa_no_colon (Port lis)))
      as (pre & -> & _).
    apply last_last.
  - destruct (Split_last_piece (IP lis) _ (itoa_no_colon (Port lis))) as (pre & -> & _).
    apply last_last.
Qed.

End StringFacts.

Section StartFacts.
Context `{Externals}.
Import worker.

(** C5. When Start gets its listener and a lease, the node record it
    puts under the nodes prefix, which becomes the manager's self node
    when the put succeeds, has as host the configured AdvertisedHost
    followed by the port of the listener when AdvertisedHost ends in a
    colon, and the configured AdvertisedHost unchanged when it does
    not. *)
Theorem Start_registers_advertised_host (env : StartEnv) (w : Worker)
    (lis : TCPAddr) (ttl : LeaseID) :
  listen env = Ok lis →
  grant env = Ok ttl →
  ∃ host : string,
    let n := {| ID := newNodeID env; Host := host; Typ := NodeWorker;
                Tag := NodeTags (opt w) |} in
    (Start env w).2 =
      [GrantLease (node.LivenessProbeInterval (node.opt (nodeManager w)));
       Put (path_Join [node.nodeNs; newNodeID env]) n ttl] ∧
    (put env = None → node.Self (nodeManager (Start env w).1.2) = Some n) ∧
    ((∃ p, AdvertisedHost (opt w) = p +:+ ":") →
       host = AdvertisedHost (opt w) +:+ itoa (Port lis)) ∧
    ((∀ p, AdvertisedHost (opt w) ≠ p +:+ ":") → host = AdvertisedHost (opt w)).
Proof.
  intros Hlis Hgrant. unfold Start. rewrite Hlis.
  rewrite TCPAddr_last_fragment.
  unfold node.RegisterSelf, node.registerOrRefresh. rewrite Hgrant.
  destruct (HasSuffix (AdvertisedHost (opt w)) ":") eqn:Hsuffix.
  - exists (AdvertisedHost (opt w) +:+ itoa (Port lis)). simpl.
    split_and!.
    + by destruct (put env).
    + by intros ->.
    + done.
    + intros Hno. apply HasSuffix_colon in Hsuffix as [p Hp]. by destruct (Hno p).
  - exists (AdvertisedHost (opt w)). simpl.
    split_and!.
    + by destruct (put env).
    + by intros ->.
    + intros Hends. apply HasSuffix_colon in Hends. congruence.
    + done.
Qed.

End StartFacts.

(** * The worker: the output writer *)

Section OutputFacts.
Context `{Externals}.
Import worker.

(** One turn of the loop: it only goes on with the worker's own node
    known, and then with the entry's sink recorded. *)
Lemma newOutputWriter_range_turn (env : TaskEnv) (w : Worker) (jobID : string) (cur : Stage)
    (id host : string) (rest : list (string * string)) (acc m : gmap string Sink) :
  newOutputWriter_range env w jobID cur ((id, host) :: rest) acc = Return m →
  ∃ self, node.Self (nodeManager w) = Some self ∧
    newOutputWriter_range env w jobID cur rest
      (<[id := sink_for w self jobID cur id host]> acc) = Return m.
Proof.
  simpl. unfold sink_for.
  destruct (node.Self (nodeManager w)) as [self|]; [|done].
  intros Hloop. exists self. split; [done|].
  destruct (String.eqb host (Host self)).
  - destruct (getRunningTask w _) as [t|]; [done|].
    by destruct (dial env host _).
  - by destruct (dial env host _).
Qed.

Lemma newOutputWriter_range_lookup (env : TaskEnv) (w : Worker) (jobID : string) (cur : Stage)
    (entries : list (string * string)) (acc m : gmap string Sink) :
  NoDup entries.*1 →
  newOutputWriter_range env w jobID cur entries acc = Return m →
  (∀ id host, (id, host) ∈ entries →
     ∃ self, node.Self (nodeManager w) = Some self ∧
             m !! id = Some (sink_for w self jobID cur id host)) ∧
  (∀ id, id ∉ entries.*1 → m !! id = acc !! id).
Proof.
  revert acc. induction entries as [|[id0 host0] rest IH]; intros acc Hnodup Hloop.
  - injection Hloop as <-. split; [|done]. intros id host Hin. by apply elem_of_nil in Hin.
  - apply NoDup_cons in Hnodup as [Hfresh Hnodup]. simpl in Hfresh.
    apply newOutputWriter_range_turn in Hloop as (self & Hself & Hloop).
    destruct (IH _ Hnodup Hloop) as [Hin Hout]. split.
    + intros id host [[= -> ->]|Hrest]%elem_of_cons; [|by apply Hin].
      exists self. split; [done|]. rewrite (Hout _ Hfresh). apply lookup_insert_eq.
    + intros id [Hne Hrest]%not_elem_of_cons. simpl in Hne.
      rewrite (Hout _ Hrest). by apply lookup_insert_ne.
Qed.

(** C4. In the writer that newOutputWriter constructs, every entry
    (partitionID, host) of the partition map has a sink under
    partitionID: a local pipe into the input of the downstream executor
    when host is the worker's own host and the downstream task is in the
    running-tasks registry, and otherwise a buffered push stream to host
    for the downstream task with buffer capacity Output.BufferLength.
    The writer has no other sink. *)
Theorem newOutputWriter_sinks (env : TaskEnv) (w : Worker) (jobID : string) (cur : Stage)
    (partitionToHost : gmap string string) (entries : list (string * string))
    (out : Writer) :
  entries ≡ₚ map_to_list partitionToHost →
  newOutputWriter env w jobID cur entries = Return out →
  (∀ id host, partitionToHost !! id = Some host →
     let taskID := path_Join [jobID; OutStage (Output cur); id] in
     ∃ self, node.Self (nodeManager w) = Some self ∧
       (∀ t, host = Host self → getRunningTask w taskID = Some t →
             idToOutput out !! id = Some (LocalPipe t)) ∧
       (host ≠ Host self ∨ getRunningTask w taskID = None →
             idToOutput out !! id =
               Some (BufferedOutput {| psHost := host; psTaskID := taskID |}
                       (BufferLength (OptOutput (opt w)))))) ∧
  (∀ id, partitionToHost !! id = None → idToOutput out !! id = None).
Proof.
  intros Hperm. unfold newOutputWriter.
  destruct (newOutputWriter_range env w jobID cur entries ∅) as [m| |] eqn:Hloop; [|done..].
  intros [= <-]. simpl.
  assert (Hnodup : NoDup entries.*1).
  { rewrite Hperm. apply NoDup_fst_map_to_list. }
  destruct (newOutputWriter_range_lookup _ _ _ _ _ _ _ Hnodup Hloop) as [Hin Hout].
  split.
  - intros id host Hhost.
    destruct (Hin id host) as (self & Hself & Hsink).
    { rewrite Hperm. by apply elem_of_map_to_list. }
    exists self. split; [done|]. rewrite Hsink. unfold sink_for. split.
    + intros t -> Ht. by rewrite String.eqb_refl, Ht.
    + intros [Hne|Hnone].
      * by rewrite (proj2 (String.eqb_neq _ _) Hne).
      * rewrite Hnone. by destruct (String.eqb host (Host self)).
  - intros id Hnone. rewrite Hout; [done|].
    rewrite Hperm. intros [[id' host] [-> Hin']]%list_elem_of_fmap.
    apply elem_of_map_to_list in Hin'. simpl in Hnone. congruence.
Qed.

End OutputFacts.

(** * The worker: CreateTasks *)

Section CreateTasksFacts.
Context `{Externals}.
Import worker.

(** [createTask] either returns nil, having persisted the task and
    constructed, recorded and started its executor, or it does not
    return nil and leaves registry and executors as they were. *)
Lemma createTask_cases (env : TaskEnv) (req : CreateTasksRequest) (partitionID : string)
    (s : Stage) (broadcasts : gmap string string) (w : Worker) :
  ((createTask env req partitionID s broadcasts w).1 = Return tt ∧
   created req s partitionID w (createTask env req partitionID s broadcasts w).2) ∨
  ((createTask env req partitionID s broadcasts w).1 ≠ Return tt ∧
   executors (createTask env req partitionID s broadcasts w).2 = executors w ∧
   runningTasks (createTask env req partitionID s broadcasts w).2 = runningTasks w).
Proof.
  unfold createTask.
  destruct (node.Self (nodeManager w)) as [self|] eqn:Hself; [|by right].
  unfold job.CreateTask. destruct (commit env) as [cerr|]; [by right|].
  simpl.
  destruct (newOutputWriter _ _ _ _ _) as [out|oerr|why]; [|by right..].
  destruct (newExecutor env) as [xerr|].
  { right. by destruct (reportFailure env). }
  left. split; [done|]. simpl.
  set (t := NewTask partitionID self (ReqJobId req) s).
  set (a := fresh (dom (executors w))).
  exists self, a.
  eexists {| task := t; function := Function s;
             Input := NewReader (QueueLength (OptInput (opt w)));
             ExecOutput := out; state := job.Running |}.
  simpl. split_and!; try done.
  - apply not_elem_of_dom, is_fresh.
  - by rewrite alter_insert_eq.
Qed.

Lemma created_fresh (req : CreateTasksRequest) (s : Stage) (partitionID : string)
    (before after : Worker) :
  created req s partitionID before after → executors after ≠ executors before.
Proof.
  intros (self & a & exec & _ & _ & Hfree & Hafter & _) Heq.
  rewrite Heq in Hafter. rewrite Hafter, lookup_insert_eq in Hfree. done.
Qed.

Lemma created_Return (env : TaskEnv) (req : CreateTasksRequest) (partitionID : string)
    (s : Stage) (broadcasts : gmap string string) (w : Worker) :
  created req s partitionID w (createTask env req partitionID s broadcasts w).2 →
  (createTask env req partitionID s broadcasts w).1 = Return tt.
Proof.
  intros Hcreated.
  destruct (createTask_cases env req partitionID s broadcasts w) as [[Hret _]|(_ & Hsame & _)];
    [done|].
  by destruct (created_fresh _ _ _ _ _ Hcreated).
Qed.

Lemma createTask_executors (env : TaskEnv) (req : CreateTasksRequest) (partitionID : string)
    (s : Stage) (broadcasts : gmap string string) (w : Worker) :
  executors w ⊆ executors (createTask env req partitionID s broadcasts w).2.
Proof.
  destruct (createTask_cases env req partitionID s broadcasts w)
    as [[_ (self & a & exec & _ & _ & Hfree & -> & _)]|(_ & -> & _)]; [|done].
  by apply insert_subseteq.
Qed.

(** Once a goroutine has returned an error, Wait returns an error. *)
Lemma errgroup_first (env : nat → TaskEnv) (req : CreateTasksRequest) (s : Stage)
    (broadcasts : gmap string string) (sched : list (nat * string)) (w : Worker)
    (err : error) :
  (errgroup env req s broadcasts sched w (Some err)).1 ≠ Return None.
Proof.
  revert w. induction sched as [|[i partitionID] rest IH]; intros w; simpl; [done|].
  destruct (createTask (env i) req partitionID s broadcasts w) as [[[]|e|why] w1]; simpl;
    [apply IH|apply IH|done].
Qed.

Lemma errgroup_executors (env : nat → TaskEnv) (req : CreateTasksRequest) (s : Stage)
    (broadcasts : gmap string string) (sched : list (nat * string)) (w : Worker)
    (first : option error) :
  executors w ⊆ executors (errgroup env req s broadcasts sched w first).2.
Proof.
  revert w first. induction sched as [|[i partitionID] rest IH]; intros w first; simpl; [done|].
  pose proof (createTask_executors (env i) req partitionID s broadcasts w) as Hstep.
  destruct (createTask (env i) req partitionID s broadcasts w) as [[[]|e|why] w1]; simpl in *.
  - etrans; [exact Hstep|apply IH].
  - etrans; [exact Hstep|apply IH].
  - done.
Qed.

(** The steps are those of partitions of the schedule. *)
Lemma steps_scheduled (env : nat → TaskEnv) (req : CreateTasksRequest) (s : Stage)
    (broadcasts : gmap string string) (sched : list (nat * string)) (w : Worker)
    (i : nat) (partitionID : string) (before after : Worker) :
  (i, partitionID, before, after) ∈ steps env req s broadcasts sched w →
  (i, partitionID) ∈ sched.
Proof.
  revert w. induction sched as [|[j q] rest IH]; intros w; simpl.
  - intros Hin. by apply elem_of_nil in Hin.
  - destruct (createTask (env j) req q s broadcasts w) as [[[]|e|why] w1]; simpl;
      rewrite !elem_of_cons; intros [[= -> -> -> ->]|Hin]; eauto.
    by apply elem_of_nil in Hin.
Qed.

(** What a step leaves in the store of executors is still there when the
    group is done. *)
Lemma steps_executors (env : nat → TaskEnv) (req : CreateTasksRequest) (s : Stage)
    (broadcasts : gmap string string) (sched : list (nat * string)) (w : Worker)
    (first : option error) (i : nat) (partitionID : string) (before after : Worker) :
  (i, partitionID, before, after) ∈ steps env req s broadcasts sched w →
  executors after ⊆ executors (errgroup env req s broadcasts sched w first).2.
Proof.
  revert w first. induction sched as [|[j q] rest IH]; intros w first; simpl.
  - intros Hin. by apply elem_of_nil in Hin.
  - destruct (createTask (env j) req q s broadcasts w) as [[[]|e|why] w1]; simpl;
      rewrite ?elem_of_cons; intros [[= -> -> -> ->]|Hin];
      eauto using errgroup_executors.
    by apply elem_of_nil in Hin.
Qed.

(** Wait returns nil only when every goroutine created its partition. *)
Lemma errgroup_nil_created (env : nat → TaskEnv) (req : CreateTasksRequest) (s : Stage)
    (broadcasts : gmap string string) (sched : list (nat * string)) (w : Worker)
    (first : option error) :
  (errgroup env req s broadcasts sched w first).1 = Return None →
  ∀ i partitionID, (i, partitionID) ∈ sched →
    ∃ before after, (i, partitionID, before, after) ∈ steps env req s broadcasts sched w ∧
                    created req s partitionID before after.
Proof.
  revert w first. induction sched as [|[j q] rest IH]; intros w first; simpl.
  - intros _ i partitionID Hin. by apply elem_of_nil in Hin.
  - pose proof (createTask_cases (env j) req q s broadcasts w) as Hcases.
    destruct (createTask (env j) req q s broadcasts w) as [[[]|e|why] w1]; simpl in *.
    + intros Hnil i partitionID [[= -> ->]|Hin]%elem_of_cons.
      * destruct Hcases as [[_ Hcreated]|[Hne _]]; [|done].
        exists w, w1. split; [apply elem_of_cons; by left|done].
      * destruct (IH _ _ Hnil i partitionID Hin) as (before & after & Hstep & Hcreated).
        exists before, after. split; [apply elem_of_cons; by right|done].
    + intros Hnil. destruct first; by apply errgroup_first in Hnil.
    + done.
Qed.

(** When every partition of a schedule without repetition was created
    in a step, Wait returns nil. *)
Lemma errgroup_created_nil (env : nat → TaskEnv) (req : CreateTasksRequest) (s : Stage)
    (broadcasts : gmap string string) (sched : list (nat * string)) (w : Worker) :
  NoDup sched →
  (∀ i partitionID, (i, partitionID) ∈ sched →
     ∃ before after, (i, partitionID, before, after) ∈ steps env req s broadcasts sched w ∧
                     created req s partitionID before after) →
  (errgroup env req s broadcasts sched w None).1 = Return None.
Proof.
  revert w. induction sched as [|[j q] rest IH]; intros w Hnodup Hall; [done|].
  apply NoDup_cons in Hnodup as [Hfresh Hnodup].
  assert (Hhead : (createTask (env j) req q s broadcasts w).1 = Return tt).
  { destruct (Hall j q) as (before & after & Hstep & Hcreated); [apply elem_of_cons; by left|].
    simpl in Hstep.
    destruct (createTask (env j) req q s broadcasts w) as [r w1] eqn:Hrun.
    assert (Hhere : before = w ∧ after = w1).
    { destruct r as [[]|e|why]; apply elem_of_cons in Hstep as [[= -> ->]|Hin]; try done.
      - by apply steps_scheduled in Hin.
      - by apply steps_scheduled in Hin.
      - by apply elem_of_nil in Hin. }
    destruct Hhere as [-> ->].
    pose proof (created_Return (env j) req q s broadcasts w) as Hret.
    rewrite Hrun in Hret. by apply Hret. }
  simpl in *.
  destruct (createTask (env j) req q s broadcasts w) as [r w1]. simpl in Hhead. subst r.
  apply IH; [done|].
  intros i partitionID Hin.
  destruct (Hall i partitionID) as (before & after & Hstep & Hcreated);
    [apply elem_of_cons; by right|].
  apply elem_of_cons in Hstep as [[= -> -> -> ->]|Hstep]; [done|].
  by exists before, after.
Qed.

Lemma indexed_NoDup (partitions : list string) (sched : list (nat * string)) :
  sched ≡ₚ imap pair partitions → NoDup sched.
Proof.
  intros ->. apply (NoDup_fmap_1 fst).
  rewrite fmap_imap.
  rewrite (imap_ext _ (λ j _, id j)) by done.
  rewrite imap_seq_0, list_fmap_id. apply NoDup_seq.
Qed.

Lemma indexed_elem_of (partitions : list string) (sched : list (nat * string))
    (i : nat) (partitionID : string) :
  sched ≡ₚ imap pair partitions →
  (i, partitionID) ∈ sched ↔ partitions !! i = Some partitionID.
Proof.
  intros ->. rewrite elem_of_lookup_imap. split.
  - by intros (j & q & [= -> ->] & Hq).
  - intros Hq. by exists i, partitionID.
Qed.

End CreateTasksFacts.

Section CreateTasksTheorems.
Context `{Externals}.
Import worker.

Lemma CreateTasks_decoded (env : nat → TaskEnv) (sched : list (nat * string))
    (req : CreateTasksRequest) (w : Worker) (s : Stage) (broadcasts : gmap string string) :
  Stage_UnmarshalJSON (ReqStage req) = Ok s →
  DeserializeBroadcast (Broadcasts req) = Ok broadcasts →
  ((CreateTasks env sched req w).1 = Return tt ↔
     (errgroup env req s broadcasts sched w None).1 = Return None) ∧
  (CreateTasks env sched req w).2 = (errgroup env req s broadcasts sched w None).2.
Proof.
  intros Hs Hb. unfold CreateTasks. rewrite Hs, Hb.
  destruct (errgroup env req s broadcasts sched w None) as [[[err|]|err|why] w']; simpl;
    split; try done; split; intros; congruence.
Qed.

(** C3, as amended. CreateTasks returns success if and only if the
    stage and the broadcasts of the request decode and every partition
    ID of the request had its task persisted and its executor
    constructed, recorded in the running-tasks registry and started; so
    if any partition fails the call does not return success. Whatever
    the call returns, the executor of a partition that was started is
    still in the worker's store, running, when the call is over. *)
Theorem CreateTasks_success_iff (env : nat → TaskEnv) (sched : list (nat * string))
    (req : CreateTasksRequest) (w : Worker) :
  sched ≡ₚ imap pair (PartitionIDs req) →
  ((CreateTasks env sched req w).1 = Return tt ↔
     ∃ s broadcasts,
       Stage_UnmarshalJSON (ReqStage req) = Ok s ∧
       DeserializeBroadcast (Broadcasts req) = Ok broadcasts ∧
       ∀ i partitionID, PartitionIDs req !! i = Some partitionID →
         ∃ before after,
           (i, partitionID, before, after) ∈ steps env req s broadcasts sched w ∧
           created req s partitionID before after) ∧
  (∀ s broadcasts i partitionID before after,
     Stage_UnmarshalJSON (ReqStage req) = Ok s →
     DeserializeBroadcast (Broadcasts req) = Ok broadcasts →
     (i, partitionID, before, after) ∈ steps env req s broadcasts sched w →
     created req s partitionID before after →
     ∃ a exec,
       executors after !! a = Some exec ∧
       executors (CreateTasks env sched req w).2 !! a = Some exec ∧
       PartitionID (task exec) = partitionID ∧
       state exec = job.Running ∧
       getRunningTask after (TaskReference_String (Reference (task exec))) = Some a).
Proof.
  intros Hsched. split; [split|].
  - intros Hok.
    destruct (Stage_UnmarshalJSON (ReqStage req)) as [s|err] eqn:Hs;
      [|by unfold CreateTasks in Hok; rewrite Hs in Hok].
    destruct (DeserializeBroadcast (Broadcasts req)) as [broadcasts|err] eqn:Hb;
      [|by unfold CreateTasks in Hok; rewrite Hs, Hb in Hok].
    exists s, broadcasts. split_and!; [done..|].
    intros i partitionID Hi.
    apply (CreateTasks_decoded env sched req w s broadcasts Hs Hb) in Hok.
    apply (errgroup_nil_created _ _ _ _ _ _ _ Hok).
    by apply (indexed_elem_of (PartitionIDs req)).
  - intros (s & broadcasts & Hs & Hb & Hall).
    apply (CreateTasks_decoded env sched req w s broadcasts Hs Hb).
    apply errgroup_created_nil; [by eapply indexed_NoDup|].
    intros i partitionID Hin. apply Hall.
    by apply (indexed_elem_of (PartitionIDs req) sched).
  - intros s broadcasts i partitionID before after Hs Hb Hstep Hcreated.
    destruct (CreateTasks_decoded env sched req w s broadcasts Hs Hb) as [_ ->].
    pose proof (steps_executors env req s broadcasts sched w None _ _ _ _ Hstep) as Hkept.
    destruct Hcreated as (self & a & exec & _ & _ & _ & Hstore & Htask & Hstate & Hreg).
    assert (Hexec : executors after !! a = Some exec).
    { rewrite Hstore. apply lookup_insert_eq. }
    exists a, exec. split_and!.
    + done.
    + by eapply lookup_weaken.
    + by rewrite Htask.
    + done.
    + unfold getRunningTask. rewrite Hreg, Htask. apply lookup_insert_eq.
Qed.

(** A failure to create the task record carries the Internal code. *)
Lemma createTask_persist_failure (env : TaskEnv) (req : CreateTasksRequest)
    (partitionID : string) (s : Stage) (broadcasts : gmap string string) (w : Worker)
    (self : Node) (cerr : error) :
  node.Self (nodeManager w) = Some self →
  commit env = Some cerr →
  ∃ err, (createTask env req partitionID s broadcasts w).1 = Fail err ∧
         status_Code err = Internal.
Proof.
  intros Hself Hcommit. unfold createTask, job.CreateTask. rewrite Hself, Hcommit.
  simpl. eauto.
Qed.

(** So does a failure to build the output writer. *)
Lemma createTask_output_failure (env : TaskEnv) (req : CreateTasksRequest)
    (partitionID : string) (s : Stage) (broadcasts : gmap string string) (w : Worker)
    (err : error) :
  (createTask env req partitionID s broadcasts w).1 = Fail err →
  newExecutor env = None →
  status_Code err = Internal.
Proof.
  unfold createTask, job.CreateTask. intros Hfail Hexec. rewrite Hexec in Hfail.
  destruct (node.Self (nodeManager w)); [|done].
  destruct (commit env); simpl in Hfail.
  - by injection Hfail as <-.
  - destruct (newOutputWriter _ _ _ _ _); [done| |done].
    by injection Hfail as <-.
Qed.

(** A failure to construct the executor is returned as it is wrapped,
    or as the reporter's own error: no status is put around it. *)
Lemma createTask_unwrapped_executor_error (env : TaskEnv) (req : CreateTasksRequest)
    (partitionID : string) (s : Stage) (broadcasts : gmap string string) (w : Worker)
    (xerr : error) (r : outcome unit) :
  newExecutor env = Some xerr →
  (createTask env req partitionID s broadcasts w).1 = r →
  (∃ why, r = Panic why) ∨
  (∃ err, r = Fail err ∧ status_Code err = Internal ∧
          (is_Some (commit env) ∨ ∃ e, err = StatusError Internal ("unable to create output: " +:+ e))) ∨
  r = Fail (match reportFailure env with
            | Some reportErr => reportErr
            | None => WrapError "failed to start executor" xerr
            end).
Proof.
  intros Hexec <-. unfold createTask, job.CreateTask. rewrite Hexec.
  destruct (node.Self (nodeManager w)); [|left; eauto].
  destruct (commit env); simpl.
  - right; left. eauto 6.
  - destruct (newOutputWriter _ _ _ _ _); simpl.
    + right; right. by destruct (reportFailure env).
    + right; left. eauto 6.
    + left; eauto.
Qed.

End CreateTasksTheorems.

(** * The node manager: the cache of channels *)

Section ConnectFacts.
Context `{Externals}.

Lemma Load_Store (cs : list (string * node.ClientConn)) (host : string)
    (c : node.ClientConn) :
  node.Load (node.Store cs host c) host = Some c.
Proof.
  induction cs as [|[k v] cs IH]; simpl.
  - by rewrite String.eqb_refl.
  - destruct (String.eqb k host) eqn:Hk; simpl; by rewrite Hk.
Qed.

Lemma Load_Store_other (cs : list (string * node.ClientConn)) (host other : string)
    (c : node.ClientConn) :
  other ≠ host →
  node.Load (node.Store cs host c) other = node.Load cs other.
Proof.
  intros Hne. induction cs as [|[k v] cs IH]; simpl.
  - by rewrite (proj2 (String.eqb_neq host other)).
  - destruct (String.eqb k host) eqn:Hk; simpl.
    + apply String.eqb_eq in Hk as ->.
      by rewrite (proj2 (String.eqb_neq host other)).
    + by rewrite IH.
Qed.

Lemma Store_keys_present (cs : list (string * node.ClientConn)) (host : string)
    (c : node.ClientConn) :
  host ∈ cs.*1 → (node.Store cs host c).*1 = cs.*1.
Proof.
  induction cs as [|[k v] cs IH]; csimpl.
  - intros Hin. by apply elem_of_nil in Hin.
  - intros Hin. destruct (String.eqb_spec k host) as [->|Hne]; csimpl; [done|].
    apply elem_of_cons in Hin as [->|Hin]; [done|]. by rewrite IH.
Qed.

Lemma Store_keys_absent (cs : list (string * node.ClientConn)) (host : string)
    (c : node.ClientConn) :
  host ∉ cs.*1 → (node.Store cs host c).*1 = cs.*1 ++ [host].
Proof.
  induction cs as [|[k v] cs IH]; csimpl; [done|].
  intros [Hne Hout]%not_elem_of_cons.
  destruct (String.eqb_spec k host) as [->|_]; csimpl; [done|]. by rewrite IH.
Qed.

(** X1. Connect dials exactly when the host has no cached channel or its
    cached channel is in TransientFailure; otherwise it returns the
    cached channel, whatever its state, and leaves the manager alone. *)
Theorem Connect_dials_iff (dial : result node.ClientConn) (host : string)
    (m : node.manager) :
  let stale := node.Load (node.conns m) host = None ∨
               ∃ c, node.Load (node.conns m) host = Some c ∧
                    node.connState c = node.TransientFailure in
  (stale →
     (node.Connect dial host m).2 =
       [node.DialContext host (node.ConnectTimeout (node.opt m))]) ∧
  (¬ stale →
     ∃ c, node.Load (node.conns m) host = Some c ∧
          node.Connect dial host m = (Ok c, m, [])).
Proof.
  unfold node.Connect, node.establishNewConnection. simpl.
  destruct (node.Load (node.conns m) host) as [c|].
  - destruct (node.connState c) eqn:Hstate; split;
      try (intros [?|(c' & [= <-] & ?)]; congruence);
      try (intros _; by exists c);
      try (intros _; by destruct dial);
      intros Hfresh; destruct Hfresh; right; eauto.
  - split; [intros _; by destruct dial|]. intros Hfresh. destruct Hfresh. by left.
Qed.

(** X2. When Connect dials and the dial succeeds, the new channel is
    returned and cached under the host, in place of the one that was
    there, and the channels of the other hosts stay cached as they
    were; when the dial fails, the error is returned and the manager is
    left as it was. *)
Theorem Connect_dial (dial : result node.ClientConn) (host : string) (m : node.manager) :
  (node.Load (node.conns m) host = None ∨
   ∃ c, node.Load (node.conns m) host = Some c ∧
        node.connState c = node.TransientFailure) →
  match dial with
  | Ok c =>
      (node.Connect dial host m).1.1 = Ok c ∧
      node.Load (node.conns (node.Connect dial host m).1.2) host = Some c ∧
      (∀ other, other ≠ host →
         node.Load (node.conns (node.Connect dial host m).1.2) other
           = node.Load (node.conns m) other) ∧
      node.self (node.Connect dial host m).1.2 = node.self m
  | Err err => (node.Connect dial host m).1 = (Err err, m)
  end.
Proof.
  intros Hstale.
  assert (Hdial : node.Connect dial host m = node.establishNewConnection dial host m).
  { unfold node.Connect. destruct Hstale as [->|(c & -> & ->)]; done. }
  rewrite Hdial. unfold node.establishNewConnection. destruct dial as [c|err]; simpl.
  - split_and!; [done|apply Load_Store| |done].
    intros other Hne. by apply Load_Store_other.
  - done.
Qed.

(** X3. A channel that Connect returned is returned again by the next
    Connect for the same host without a dial, unless it is in
    TransientFailure by then. *)
Theorem Connect_reuses (dial dial' : result node.ClientConn) (host : string)
    (m m' : node.manager) (c : node.ClientConn) (calls : list node.DialCall) :
  node.Connect dial host m = (Ok c, m', calls) →
  node.connState c ≠ node.TransientFailure →
  node.Connect dial' host m' = (Ok c, m', []).
Proof.
  intros Hfirst Hstate.
  assert (Hcached : node.Load (node.conns m') host = Some c).
  { unfold node.Connect, node.establishNewConnection in Hfirst.
    destruct (node.Load (node.conns m) host) as [c0|] eqn:Hload.
    - destruct (node.connState c0) eqn:Hc0;
        try (injection Hfirst as <- <- <-; exact Hload);
        destruct dial as [c1|]; [|done];
        injection Hfirst as <- <- <-; apply Load_Store.
    - destruct dial as [c1|]; [|done].
      injection Hfirst as <- <- <-. apply Load_Store. }
  unfold node.Connect. rewrite Hcached. by destruct (node.connState c).
Qed.

(** X4. Connect keeps the hosts of the cache distinct, never drops a host
    from it, and adds no host but the one it is asked for. *)
Theorem Connect_hosts (dial : result node.ClientConn) (host : string) (m : node.manager) :
  NoDup (node.conns m).*1 →
  NoDup (node.conns (node.Connect dial host m).1.2).*1 ∧
  (∀ h, h ∈ (node.conns m).*1 → h ∈ (node.conns (node.Connect dial host m).1.2).*1) ∧
  (∀ h, h ∈ (node.conns (node.Connect dial host m).1.2).*1 →
        h = host ∨ h ∈ (node.conns m).*1).
Proof.
  intros Hnodup.
  assert (Hstore : ∀ c,
    NoDup (node.Store (node.conns m) host c).*1 ∧
    (∀ h, h ∈ (node.conns m).*1 → h ∈ (node.Store (node.conns m) host c).*1) ∧
    (∀ h, h ∈ (node.Store (node.conns m) host c).*1 → h = host ∨ h ∈ (node.conns m).*1)).
  { intros c. destruct (decide (host ∈ (node.conns m).*1)) as [Hin|Hout].
    { rewrite Store_keys_present by done. naive_solver. }
    rewrite Store_keys_absent by done. split_and!.
    - apply NoDup_app. split_and!; [done| |apply NoDup_singleton].
      intros h Hh ->%list_elem_of_singleton. done.
    - intros h Hh. apply elem_of_app. by left.
    - intros h [Hh| ->%list_elem_of_singleton]%elem_of_app; eauto. }
  assert (Hsame : NoDup (node.conns m).*1 ∧
    (∀ h, h ∈ (node.conns m).*1 → h ∈ (node.conns m).*1) ∧
    (∀ h, h ∈ (node.conns m).*1 → h = host ∨ h ∈ (node.conns m).*1)) by auto.
  unfold node.Connect, node.establishNewConnection.
  destruct (node.Load (node.conns m) host) as [c0|];
    [destruct (node.connState c0)|]; destruct dial as [c|err]; simpl;
    first [exact Hsame|apply Hstore].
Qed.

Lemma Load_shut (cs : list (string * node.ClientConn)) (host : string) :
  node.Load (shut <$> cs) host = (λ c, (shut (host, c)).2) <$> node.Load cs host.
Proof.
  induction cs as [|[k v] cs IH]; simpl; [done|].
  by destruct (String.eqb k host).
Qed.

(** X5. Close leaves the channels it shut down in the cache: after a Close
    in which no channel failed to close, Connect for a cached host
    returns that host's channel, shut down, and does not dial. *)
Theorem Close_then_Connect (dial : result node.ClientConn) (host : string)
    (m : node.manager) (c : node.ClientConn) :
  Forall (λ kv, node.closeErr kv.2 = None) (node.conns m) →
  node.Load (node.conns m) host = Some c →
  ∃ c', node.Connect dial host (node.Close m).2 = (Ok c', (node.Close m).2, []) ∧
        node.connState c' = node.Shutdown ∧
        node.target c' = node.target c.
Proof.
  intros Hok Hload.
  unfold node.Close. rewrite (Range_Close_all _ None Hok). simpl.
  unfold node.Connect. simpl. rewrite Load_shut, Hload. simpl. eauto.
Qed.

End ConnectFacts.

(** * The node manager: registration and its refresher *)

Section RegistrationFacts.
Context `{Externals}.

(** X6. RegisterSelf followed by UnregisterNode with the ID of the node
    that was registered: the delete is for the very key the put wrote,
    the manager has no self node any more and its ticker is stopped,
    and a further UnregisterNode that reaches the self node panics. *)
Theorem RegisterSelf_then_UnregisterNode (ttl : LeaseID) (n : Node) (m m1 : node.manager)
    (calls : list CrdCall) (deleted deleted' : Z) (nid : string) :
  node.RegisterSelf (Ok ttl) None n m = (None, m1, calls) →
  ∃ key m2,
    last calls = Some (Put key n ttl) ∧
    node.UnregisterNode (Ok deleted) (ID n) m1 = (Return tt, m2, [Delete key]) ∧
    node.Self m2 = None ∧
    (node.stopped <$> node.livenessProveTick m2) = Some true ∧
    (node.UnregisterNode (Ok deleted') nid m2).1.1 = Panic nil_dereference.
Proof.
  unfold node.RegisterSelf, node.registerOrRefresh. intros [= <- <-].
  exists (path_Join [node.nodeNs; ID n]). eexists. split; [done|].
  unfold node.UnregisterNode. simpl. rewrite String.eqb_refl. done.
Qed.

(** X7. UnregisterNode for the ID of another node deletes that node's key
    and leaves the manager as it is: the self node stays and the ticker
    is not stopped. *)
Theorem UnregisterNode_other_node (deleted : Z) (nid : string) (m : node.manager)
    (s : Node) :
  node.self m = Some s →
  nid ≠ ID s →
  node.UnregisterNode (Ok deleted) nid m
    = (Return tt, m, [Delete (path_Join [node.nodeNs; nid])]).
Proof.
  intros Hself Hne. unfold node.UnregisterNode. rewrite Hself.
  by rewrite (proj2 (String.eqb_neq nid (ID s)) Hne).
Qed.

Lemma livenessProve_registered (grant : result LeaseID) (put : option error)
    (m : node.manager) (n : Node) :
  node.self m = Some n →
  ∃ lines calls,
    node.livenessProve grant put m = (Return lines, calls) ∧
    length lines = (if tick_failed (grant, put) then 2 else 0) ∧
    length (List.filter is_GrantLease calls) = 1 ∧
    (∀ key n' l, Put key n' l ∈ calls →
       key = path_Join [node.nodeNs; ID n] ∧ n' = n ∧ grant = Ok l).
Proof.
  intros Hself. unfold node.livenessProve, node.registerOrRefresh. rewrite Hself.
  destruct grant as [ttl|err]; [destruct put as [err|]|]; simpl; do 2 eexists;
    (split_and!; [reflexivity|reflexivity|reflexivity|]);
    intros key n' l Hin; repeat (apply elem_of_cons in Hin as [Hin|Hin]; try done);
    try (by apply elem_of_nil in Hin); by injection Hin as -> -> ->.
Qed.

(** X8. With a self node registered, the refresher asks for one lease at
    every tick, whatever the earlier ticks answered: a failed refresh is
    logged, with two lines, and the loop goes on. Every put it makes
    writes the self node under its own key with the lease of that tick. *)
Theorem sendPeriodicLivenessProve_every_tick
    (ticks : list (result LeaseID * option error)) (m : node.manager) (n : Node) :
  node.self m = Some n →
  ∃ lines,
    (node.sendPeriodicLivenessProve ticks m).1 = Return lines ∧
    length lines = 2 * length (List.filter tick_failed ticks) ∧
    length (List.filter is_GrantLease (node.sendPeriodicLivenessProve ticks m).2)
      = length ticks ∧
    (∀ key n' l, Put key n' l ∈ (node.sendPeriodicLivenessProve ticks m).2 →
       key = path_Join [node.nodeNs; ID n] ∧ n' = n ∧ ∃ put, (Ok l, put) ∈ ticks).
Proof.
  intros Hself. induction ticks as [|[grant put] ticks (lines' & Hrun & Hlines & Hgrants & Hputs)].
  - exists []. split_and!; [done..|]. intros key n' l Hin. by apply elem_of_nil in Hin.
  - destruct (livenessProve_registered grant put m n Hself)
      as (lines & calls & Hone & Hlen & Hgrant & Hput).
    cbn [node.sendPeriodicLivenessProve]. rewrite Hone.
    destruct (node.sendPeriodicLivenessProve ticks m) as [r calls']. simpl in *. subst r.
    exists (lines ++ lines'). split_and!.
    + done.
    + rewrite length_app, Hlen, Hlines.
      destruct grant as [?|?]; [destruct put|]; simpl; lia.
    + cbn [snd]. rewrite List.filter_app, length_app, Hgrant, Hgrants. done.
    + cbn [snd]. intros key n' l [Hin|Hin]%elem_of_app.
      * destruct (Hput key n' l Hin) as (-> & -> & ->).
        split_and!; [done..|]. exists put. apply elem_of_cons. by left.
      * destruct (Hputs key n' l Hin) as (-> & -> & put' & Htick).
        split_and!; [done..|]. exists put'. apply elem_of_cons. by right.
Qed.

End RegistrationFacts.

(** * The worker: Start, Stop and PollData *)

Section LifecycleFacts.
Context `{Externals}.
Import worker.

Lemma set_nodeManager_same (w : Worker) : set_nodeManager (nodeManager w) w = w.
Proof. by destruct w. Qed.


(** X10. Stop leaves the running tasks alone: registry, executors and
    persisted transactions are what they were, whatever Stop returns. *)
Theorem Stop_keeps_running_tasks (del : result Z) (w : Worker) :
  runningTasks (Stop del w).1.2 = runningTasks w ∧
  executors (Stop del w).1.2 = executors w ∧
  jobManager (Stop del w).1.2 = jobManager w.
Proof.
  unfold Stop. destruct (node.Self (nodeManager w)) as [self|]; [|done].
  destruct (node.UnregisterNode del (ID self) (nodeManager w)) as [[[[]|err|why] m] calls];
    [|done..].
  by destruct (node.Close m).
Qed.

(** X11. When the coordinator's delete fails, Stop returns that failure
    under unregister node, with the self node still set and no cached
    channel closed. *)
Theorem Stop_delete_failure (err : error) (w : Worker) (self : Node) :
  node.Self (nodeManager w) = Some self →
  Stop (Err err) w =
    (Fail (WrapError "unregister node"
             (PlainError ("failed to remove from etcd: " +:+ error_text err))),
     w, [Delete (path_Join [node.nodeNs; ID self])]).
Proof.
  intros Hself. unfold Stop, node.UnregisterNode. rewrite Hself.
  by rewrite set_nodeManager_same.
Qed.

(** X12. Start followed by Stop: Stop deletes the key under which Start
    registered the worker and, the cached channels closing cleanly,
    returns nil with the self node gone; a second Stop then panics
    before it reaches the coordinator. *)
Theorem Start_then_Stop (env : StartEnv) (w : Worker) (lis : TCPAddr) (ttl : LeaseID)
    (deleted : Z) (del' : result Z) :
  listen env = Ok lis →
  grant env = Ok ttl →
  put env = None →
  Forall (λ kv, node.closeErr kv.2 = None) (node.conns (nodeManager w)) →
  ∃ key n w2,
    last (Start env w).2 = Some (Put key n ttl) ∧
    Stop (Ok deleted) (Start env w).1.2 = (Return tt, w2, [Delete key]) ∧
    node.Self (nodeManager w2) = None ∧
    Stop del' w2 = (Panic nil_dereference, w2, []).
Proof.
  intros Hlis Hgrant Hput Hconns.
  unfold Start, node.RegisterSelf, node.registerOrRefresh.
  rewrite Hlis, Hgrant, Hput. simpl.
  do 3 eexists. split; [reflexivity|].
  unfold Stop, node.UnregisterNode. simpl. rewrite String.eqb_refl. simpl.
  unfold node.Close. simpl. rewrite (Range_Close_all _ None Hconns). simpl.
  assert (Hnone : match node.conns (nodeManager w) with [] | _ => @None error end = None)
    by (by destruct (node.conns (nodeManager w))).
  rewrite Hnone. split_and!; reflexivity.
Qed.

(** X13. PollData refuses a stream whose header does not parse or names no
    registered task with the very error PushData returns for it, and
    for a registered task it panics: the pull path is not implemented. *)
Theorem PollData_refuses_as_PushData (poll : PollDataServer) (push : PushDataServer)
    (run : Run) (w : Worker) :
  PollHeaderFromMetadata poll = DataHeaderFromMetadata push →
  match PollData poll w with
  | Fail err =>
      PushData push run w = Returns (Some err, w) ∧ status_Code err = InvalidArgument
  | Panic why =>
      why = "implement me" ∧
      ∃ h exec, DataHeaderFromMetadata push = Ok h ∧
                getRunningTask w (TaskID h) = Some exec
  | Return _ => False
  end.
Proof.
  intros Hheader. unfold PollData, PushData. rewrite Hheader.
  destruct (DataHeaderFromMetadata push) as [h|herr]; [|done].
  destruct (getRunningTask w (TaskID h)) as [exec|] eqn:Hexec; [|done].
  split; [done|]. by exists h, exec.
Qed.

End LifecycleFacts.

(** * The worker: more on the output writer and on CreateTasks *)

Section CreateTasksMore.
Context `{Externals}.
Import worker.

Lemma newOutputWriter_range_panics (env : TaskEnv) (w : Worker) (jobID : string) (cur : Stage)
    (entries : list (string * string)) (acc : gmap string Sink) :
  (∃ why, newOutputWriter_range env w jobID cur entries acc = Panic why) ↔
  node.Self (nodeManager w) = None ∧ entries ≠ [].
Proof.
  revert acc. induction entries as [|[id host] rest IH]; intros acc; simpl.
  - split; [by intros [why Hwhy]|by intros [_ ?]].
  - destruct (node.Self (nodeManager w)) as [self|] eqn:Hself.
    + split; [|by intros [? _]]. intros Hpanic. exfalso.
      assert (Hrest : ∀ acc', ¬ ∃ why,
                newOutputWriter_range env w jobID cur rest acc' = Panic why).
      { intros acc' Hp. by apply IH in Hp as [? _]. }
      destruct (String.eqb host (Host self));
        [destruct (getRunningTask w _); [by eapply Hrest|]|];
        (destruct (dial env host _); [by destruct Hpanic|by eapply Hrest]).
    + split; [done|]. intros _. eauto.
Qed.

Lemma newOutputWriter_panics (env : TaskEnv) (w : Worker) (jobID : string)
    (cur : Stage) (entries : list (string * string)) :
  (∃ why, newOutputWriter env w jobID cur entries = Panic why) ↔
  node.Self (nodeManager w) = None ∧ entries ≠ [].
Proof.
  rewrite <- (newOutputWriter_range_panics env w jobID cur entries ∅).
  unfold newOutputWriter.
  destruct (newOutputWriter_range env w jobID cur entries ∅) as [m|e|p]; split;
    intros [why Hwhy]; try done; eauto.
Qed.


Lemma newOutputWriter_range_opens (env : TaskEnv) (w : Worker) (self : Node)
    (jobID : string) (cur : Stage) (id host : string) (rest : list (string * string))
    (acc : gmap string Sink) :
  node.Self (nodeManager w) = Some self →
  opens env w self jobID cur (id, host) →
  newOutputWriter_range env w jobID cur ((id, host) :: rest) acc =
    newOutputWriter_range env w jobID cur rest
      (<[id := sink_for w self jobID cur id host]> acc).
Proof.
  intros Hself Hopens. simpl. rewrite Hself. unfold sink_for.
  destruct Hopens as [[Hhost [t Ht]]|Hdial]; simpl in *.
  - rewrite Hhost, String.eqb_refl, Ht. done.
  - rewrite Hdial. destruct (String.eqb host (Host self)); [|done].
    by destruct (getRunningTask w _).
Qed.

(** X15. With a self node, newOutputWriter returns a writer when every entry
    of the partition map has a local downstream task or a host whose
    push stream opens; and it returns the error of the first entry, in
    the order of the range, whose push stream is needed and does not
    open. *)
Theorem newOutputWriter_first_failure (env : TaskEnv) (w : Worker) (self : Node)
    (jobID : string) (cur : Stage) (entries : list (string * string)) :
  node.Self (nodeManager w) = Some self →
  (Forall (opens env w self jobID cur) entries →
     ∃ out, newOutputWriter env w jobID cur entries = Return out) ∧
  (∀ pre id host post err,
     entries = pre ++ (id, host) :: post →
     Forall (opens env w self jobID cur) pre →
     (host ≠ Host self ∨
      getRunningTask w (path_Join [jobID; OutStage (Output cur); id]) = None) →
     dial env host (path_Join [jobID; OutStage (Output cur); id]) = Some err →
     newOutputWriter env w jobID cur entries = Fail err).
Proof.
  intros Hself. unfold newOutputWriter. split.
  - generalize (∅ : gmap string Sink). induction entries as [|[id host] rest IH];
      intros acc Hall; [by eexists|].
    apply Forall_cons in Hall as [Hhead Hrest].
    rewrite (newOutputWriter_range_opens _ _ _ _ _ _ _ _ _ Hself Hhead). by apply IH.
  - intros pre id host post err -> Hpre Hremote Hdial.
    generalize (∅ : gmap string Sink). induction Hpre as [|[id' host'] pre Hhead _ IH];
      intros acc.
    + simpl. rewrite Hself, Hdial.
      destruct Hremote as [Hne|Hnone].
      * by rewrite (proj2 (String.eqb_neq host (Host self)) Hne).
      * rewrite Hnone. by destruct (String.eqb host (Host self)).
    + rewrite <- app_comm_cons.
      rewrite (newOutputWriter_range_opens _ _ _ _ _ _ _ _ _ Hself Hhead). apply IH.
Qed.

(** What [createTask] leaves alone and what it only adds to. *)
Lemma createTask_frame (env : TaskEnv) (req : CreateTasksRequest) (partitionID : string)
    (s : Stage) (broadcasts : gmap string string) (w : Worker) :
  nodeManager (createTask env req partitionID s broadcasts w).2 = nodeManager w ∧
  opt (createTask env req partitionID s broadcasts w).2 = opt w ∧
  job.committed (jobManager w)
    `prefix_of` job.committed (jobManager (createTask env req partitionID s broadcasts w).2) ∧
  dom (runningTasks w) ⊆ dom (runningTasks (createTask env req partitionID s broadcasts w).2).
Proof.
  unfold createTask, job.CreateTask.
  destruct (node.Self (nodeManager w)); [|done].
  destruct (commit env); simpl; [done|].
  destruct (newOutputWriter _ _ _ _ _); simpl;
    [|split_and!; [done|done|by apply prefix_app_r|done]..].
  destruct (newExecutor env); simpl.
  - destruct (reportFailure env); simpl;
      (split_and!; [done|done|by apply prefix_app_r|done]).
  - split_and!; [done|done|by apply prefix_app_r|]. rewrite dom_insert. set_solver.
Qed.

Lemma createTask_panics (env : TaskEnv) (req : CreateTasksRequest) (partitionID : string)
    (s : Stage) (broadcasts : gmap string string) (w : Worker) :
  (∃ why, (createTask env req partitionID s broadcasts w).1 = Panic why) ↔
  node.Self (nodeManager w) = None.
Proof.
  unfold createTask, job.CreateTask.
  destruct (node.Self (nodeManager w)) as [self|] eqn:Hself; [|split; eauto].
  split; [|done]. intros [why Hwhy]. exfalso.
  destruct (commit env); simpl in Hwhy; [done|].
  match type of Hwhy with
  | context [newOutputWriter ?e ?w' ?j ?c ?l] =>
      pose proof (newOutputWriter_panics e w' j c l) as Hp;
      destruct (newOutputWriter e w' j c l) as [out|err|why'] eqn:Hout
  end.
  - destruct (newExecutor env); [by destruct (reportFailure env)|done].
  - done.
  - destruct (proj1 Hp) as [Hnone _]; [eauto|]. simpl in Hnone. congruence.
Qed.

Lemma errgroup_frame (env : nat → TaskEnv) (req : CreateTasksRequest) (s : Stage)
    (broadcasts : gmap string string) (sched : list (nat * string)) (w : Worker)
    (first : option error) :
  nodeManager (errgroup env req s broadcasts sched w first).2 = nodeManager w ∧
  opt (errgroup env req s broadcasts sched w first).2 = opt w ∧
  job.committed (jobManager w)
    `prefix_of` job.committed (jobManager (errgroup env req s broadcasts sched w first).2) ∧
  dom (runningTasks w) ⊆ dom (runningTasks (errgroup env req s broadcasts sched w first).2).
Proof.
  revert w first. induction sched as [|[i partitionID] rest IH]; intros w first; simpl; [done|].
  pose proof (createTask_frame (env i) req partitionID s broadcasts w)
    as (Hnm & Hopt & Hcommitted & Hdom).
  destruct (createTask (env i) req partitionID s broadcasts w) as [[[]|e|why] w1];
    simpl in *; [| |done];
    (match goal with
     | |- context [errgroup _ _ _ _ _ _ ?f] =>
         destruct (IH w1 f) as (Hnm' & Hopt' & Hcommitted' & Hdom')
     end;
     split_and!; [congruence|congruence|by etrans|by etrans]).
Qed.




(** X21. Unless the executor cannot be constructed, every error createTask
    returns carries the Internal code: the error of the task
    transaction and the error of the output writer are both wrapped in
    an Internal status. *)
Theorem createTask_error_code (env : TaskEnv) (req : CreateTasksRequest)
    (partitionID : string) (s : Stage) (broadcasts : gmap string string) (w : Worker)
    (err : error) :
  newExecutor env = None →
  (createTask env req partitionID s broadcasts w).1 = Fail err →
  status_Code err = Internal ∧
  ∃ msg, err = StatusError Internal msg.
Proof.
  intros Hexec Hfail. split; [by eapply createTask_output_failure|].
  pose proof (createTask_output_failure _ _ _ _ _ _ _ Hfail Hexec) as Hcode.
  destruct err as [c msg| |]; try done. simpl in Hcode. subst c. eauto.
Qed.

End CreateTasksMore.

(** * The worker: from CreateTasks to PushData *)

Section CreateThenPush.
Context `{Externals}.
Import worker.

Lemma append_inj (a b c : string) : a +:+ b = a +:+ c → b = c.
Proof.
  induction a as [|x a IH]; [done|]. rewrite !append_cons. intros [= Heq]. by apply IH.
Qed.

Lemma createTask_serves (env : TaskEnv) (req : CreateTasksRequest) (q partitionID : string)
    (s : Stage) (broadcasts : gmap string string) (w : Worker) :
  serves w (ReqJobId req) (Name s) partitionID →
  serves (createTask env req q s broadcasts w).2 (ReqJobId req) (Name s) partitionID.
Proof.
  intros (a & exec & Hreg & Hexec & Hpid & Hstate).
  destruct (createTask_cases env req q s broadcasts w)
    as [[_ (self & a0 & exec0 & _ & _ & Hfree & Hstore & Htask & Hrun & Hregistry)]
       |(_ & Hstore & Hregistry)].
  - unfold serves, getRunningTask. rewrite Hstore, Hregistry.
    unfold TaskReference_String, Reference, NewTask. simpl.
    destruct (decide (q = partitionID)) as [->|Hne].
    + exists a0, exec0. rewrite !lookup_insert_eq. by rewrite Htask.
    + exists a, exec. rewrite lookup_insert_ne.
      * rewrite lookup_insert_ne; [done|]. intros ->. congruence.
      * intros Heq. by do 4 apply append_inj in Heq.
  - exists a, exec. unfold getRunningTask. by rewrite Hstore, Hregistry.
Qed.

Lemma createTask_Return_serves (env : TaskEnv) (req : CreateTasksRequest)
    (partitionID : string) (s : Stage) (broadcasts : gmap string string) (w : Worker) :
  (createTask env req partitionID s broadcasts w).1 = Return tt →
  serves (createTask env req partitionID s broadcasts w).2 (ReqJobId req) (Name s) partitionID.
Proof.
  intros Hret.
  destruct (createTask_cases env req partitionID s broadcasts w)
    as [[_ (self & a0 & exec0 & _ & _ & _ & Hstore & Htask & Hrun & Hregistry)]|[Hne _]];
    [|done].
  exists a0, exec0. unfold getRunningTask. rewrite Hstore, Hregistry.
  unfold TaskReference_String, Reference, NewTask. simpl.
  rewrite !lookup_insert_eq. by rewrite Htask.
Qed.

Lemma errgroup_serves (env : nat → TaskEnv) (req : CreateTasksRequest) (s : Stage)
    (broadcasts : gmap string string) (sched : list (nat * string)) (w : Worker)
    (first : option error) (partitionID : string) :
  serves w (ReqJobId req) (Name s) partitionID →
  serves (errgroup env req s broadcasts sched w first).2 (ReqJobId req) (Name s) partitionID.
Proof.
  revert w first. induction sched as [|[i q] rest IH]; intros w first Hserves; simpl; [done|].
  pose proof (createTask_serves (env i) req q partitionID s broadcasts w Hserves) as Hstep.
  destruct (createTask (env i) req q s broadcasts w) as [[[]|e|why] w1]; simpl in *;
    [by apply IH|by apply IH|done].
Qed.

Lemma errgroup_nil_serves (env : nat → TaskEnv) (req : CreateTasksRequest) (s : Stage)
    (broadcasts : gmap string string) (sched : list (nat * string)) (w : Worker)
    (first : option error) :
  (errgroup env req s broadcasts sched w first).1 = Return None →
  ∀ i partitionID, (i, partitionID) ∈ sched →
    serves (errgroup env req s broadcasts sched w first).2 (ReqJobId req) (Name s) partitionID.
Proof.
  revert w first. induction sched as [|[j q] rest IH]; intros w first; simpl.
  - intros _ i partitionID Hin. by apply elem_of_nil in Hin.
  - pose proof (createTask_Return_serves (env j) req q s broadcasts w) as Hhead.
    destruct (createTask (env j) req q s broadcasts w) as [[[]|e|why] w1]; simpl in *.
    + intros Hnil i partitionID [[= -> ->]|Hin]%elem_of_cons.
      * apply errgroup_serves. by apply Hhead.
      * by apply (IH w1 first Hnil i).
    + intros Hnil. destruct first; by apply errgroup_first in Hnil.
    + done.
Qed.

Lemma CreateTasks_serves (env : nat → TaskEnv)
    (sched : list (nat * string)) (req : CreateTasksRequest) (w : Worker) :
  sched ≡ₚ imap pair (PartitionIDs req) →
  (CreateTasks env sched req w).1 = Return tt →
  ∃ s, Stage_UnmarshalJSON (ReqStage req) = Ok s ∧
       ∀ i partitionID, PartitionIDs req !! i = Some partitionID →
         serves (CreateTasks env sched req w).2 (ReqJobId req) (Name s) partitionID.
Proof.
  intros Hsched Hok.
  destruct (Stage_UnmarshalJSON (ReqStage req)) as [s|err] eqn:Hs;
    [|by unfold CreateTasks in Hok; rewrite Hs in Hok].
  destruct (DeserializeBroadcast (Broadcasts req)) as [broadcasts|err] eqn:Hb;
    [|by unfold CreateTasks in Hok; rewrite Hs, Hb in Hok].
  exists s. split; [done|]. intros i partitionID Hi.
  destruct (CreateTasks_decoded env sched req w s broadcasts Hs Hb) as [Hiff ->].
  apply (errgroup_nil_serves _ _ _ _ _ _ _ (proj1 Hiff Hok) i).
  by apply (indexed_elem_of (PartitionIDs req)).
Qed.

(** X18. When CreateTasks returns success, the registry resolves the
    reference JobID/StageName/PartitionID of every partition of the
    request to a running executor of that partition. *)
Theorem CreateTasks_registers_every_partition (env : nat → TaskEnv)
    (sched : list (nat * string)) (req : CreateTasksRequest) (w : Worker) :
  sched ≡ₚ imap pair (PartitionIDs req) →
  (CreateTasks env sched req w).1 = Return tt →
  ∃ s, Stage_UnmarshalJSON (ReqStage req) = Ok s ∧
       ∀ i partitionID, PartitionIDs req !! i = Some partitionID →
         serves (CreateTasks env sched req w).2 (ReqJobId req) (Name s) partitionID.
Proof. apply CreateTasks_serves. Qed.

(** A push stream that ends with a half-close, for a registered task
    whose executor finishes, is answered with what SendAndClose
    returns, and the task has left the registry. *)
Lemma PushData_accepts (stream : PushDataServer) (ferr : option error)
    (w : Worker) (h : DataHeader) (exec : addr) (e : TaskExecutor) :
  DataHeaderFromMetadata stream = Ok h →
  getRunningTask w (TaskID h) = Some exec →
  executors w !! exec = Some e →
  recvErr stream = None →
  ∃ w', PushData stream (Finishes ferr) w = Returns (SendAndClose stream, w') ∧
        runningTasks w' = delete (TaskID h) (runningTasks w).
Proof.
  intros Hh Hexec He Hrecv. unfold PushData. rewrite Hh, Hexec.
  unfold Dispatch. rewrite Hrecv. unfold WaitForFinish. simpl.
  rewrite lookup_alter_eq, He. simpl.
  match goal with |- context [finish ?r ?x] => destruct (finish r x) as [e'|] eqn:Hfin end.
  - eexists. split; [reflexivity|done].
  - unfold finish in Hfin. destruct (terminal _); [done|]. by destruct ferr.
Qed.

(** X19. CreateTasks followed by PushData: after a successful CreateTasks, a
    push stream for the reference of any partition of the request that
    ends with a half-close, the executor finishing, is acknowledged
    with what SendAndClose returns, and a second push for the same
    reference finds no task. *)
Theorem CreateTasks_then_PushData (env : nat → TaskEnv) (sched : list (nat * string))
    (req : CreateTasksRequest) (w : Worker) (s : Stage) (i : nat) (partitionID : string)
    (stream again : PushDataServer) (from from' : string) (ferr : option error)
    (run : Run) :
  sched ≡ₚ imap pair (PartitionIDs req) →
  (CreateTasks env sched req w).1 = Return tt →
  Stage_UnmarshalJSON (ReqStage req) = Ok s →
  PartitionIDs req !! i = Some partitionID →
  let ref := ReqJobId req +:+ "/" +:+ Name s +:+ "/" +:+ partitionID in
  DataHeaderFromMetadata stream = Ok {| TaskID := ref; FromHost := from |} →
  DataHeaderFromMetadata again = Ok {| TaskID := ref; FromHost := from' |} →
  recvErr stream = None →
  ∃ w',
    PushData stream (Finishes ferr) (CreateTasks env sched req w).2
      = Returns (SendAndClose stream, w') ∧
    PushData again run w'
      = Returns (Some (StatusError InvalidArgument ("task not found: " +:+ ref)), w').
Proof.
  intros Hsched Hok Hs Hi ref Hstream Hagain Hrecv.
  destruct (CreateTasks_serves env sched req w Hsched Hok) as (s' & Hs' & Hserves).
  assert (s' = s) as -> by congruence.
  destruct (Hserves i partitionID Hi) as (a & exec & Hreg & Hexec & _).
  destruct (PushData_accepts stream ferr _ _ a exec Hstream Hreg Hexec Hrecv)
    as (w' & Hpush & Hregistry).
  exists w'. split; [done|].
  unfold PushData. rewrite Hagain. unfold getRunningTask. rewrite Hregistry. simpl.
  by rewrite lookup_delete_eq.
Qed.

Lemma errgroup_app (env : nat → TaskEnv) (req : CreateTasksRequest) (s : Stage)
    (broadcasts : gmap string string) (pre post : list (nat * string)) (w : Worker)
    (first : option error) :
  errgroup env req s broadcasts (pre ++ post) w first =
    match errgroup env req s broadcasts pre w first with
    | (Return first', w') => errgroup env req s broadcasts post w' first'
    | other => other
    end.
Proof.
  revert w first. induction pre as [|[i q] pre IH]; intros w first; simpl; [done|].
  destruct (createTask (env i) req q s broadcasts w) as [[[]|e|why] w1]; simpl;
    [apply IH|apply IH|done].
Qed.

Lemma errgroup_keeps_first (env : nat → TaskEnv) (req : CreateTasksRequest) (s : Stage)
    (broadcasts : gmap string string) (sched : list (nat * string)) (w : Worker)
    (self : Node) (err : error) :
  node.Self (nodeManager w) = Some self →
  (errgroup env req s broadcasts sched w (Some err)).1 = Return (Some err).
Proof.
  revert w. induction sched as [|[i q] rest IH]; intros w Hself; simpl; [done|].
  pose proof (createTask_panics (env i) req q s broadcasts w) as Hpanic.
  pose proof (createTask_frame (env i) req q s broadcasts w) as (Hnm & _).
  destruct (createTask (env i) req q s broadcasts w) as [[[]|e|why] w1]; simpl in *.
  - apply IH. by rewrite Hnm.
  - apply IH. by rewrite Hnm.
  - assert (Hnone : node.Self (nodeManager w) = None) by (apply Hpanic; eauto).
    congruence.
Qed.

(** X20. On a registered worker, CreateTasks returns the error of the first
    goroutine, in the order in which they complete, that returns one;
    the goroutines after it still run, and their errors are dropped. *)
Theorem CreateTasks_first_error (env : nat → TaskEnv) (req : CreateTasksRequest)
    (w w1 : Worker) (self : Node) (s : Stage) (broadcasts : gmap string string)
    (pre post : list (nat * string)) (i : nat) (partitionID : string) (err : error) :
  node.Self (nodeManager w) = Some self →
  Stage_UnmarshalJSON (ReqStage req) = Ok s →
  DeserializeBroadcast (Broadcasts req) = Ok broadcasts →
  errgroup env req s broadcasts pre w None = (Return None, w1) →
  (createTask (env i) req partitionID s broadcasts w1).1 = Fail err →
  (CreateTasks env (pre ++ (i, partitionID) :: post) req w).1 = Fail err ∧
  (CreateTasks env (pre ++ (i, partitionID) :: post) req w).2 =
    (errgroup env req s broadcasts post
       (createTask (env i) req partitionID s broadcasts w1).2 (Some err)).2.
Proof.
  intros Hself Hs Hb Hpre Hfail. unfold CreateTasks. rewrite Hs, Hb.
  rewrite errgroup_app, Hpre. simpl.
  pose proof (errgroup_frame env req s broadcasts pre w None) as (Hnm & _).
  rewrite Hpre in Hnm. simpl in Hnm.
  pose proof (createTask_frame (env i) req partitionID s broadcasts w1) as (Hnm1 & _).
  destruct (createTask (env i) req partitionID s broadcasts w1) as [r w2]. simpl in *.
  subst r.
  pose proof (errgroup_keeps_first env req s broadcasts post w2 self err) as Hrest.
  destruct (errgroup env req s broadcasts post w2 (Some err)) as [r' w3]. simpl in *.
  rewrite Hrest; [done|]. congruence.
Qed.

End CreateThenPush.

(** * A running job *)

Section RunningJobFacts.
Import lrmr.

(** X22. Wait returns nil exactly when the job tracker delivers a final
    status other than Failed before any signal; Status then reports
    that final status, and nothing is reported as failed. *)
Theorem Wait_nil_iff_completed (ev ev' : Event) (report : option error) (r : RunningJob) :
  ((Wait ev report ev' r).1.1.1 = Return tt ↔
     ∃ st, ev = Completed st ∧ Status st ≠ job.Failed) ∧
  ((Wait ev report ev' r).1.1.1 = Return tt →
     ∃ st, ev = Completed st ∧
           RunningJob_Status (Wait ev report ev' r).1.1.2 = Status st ∧
           (Wait ev report ev' r).1.2 = []).
Proof.
  unfold Wait, Abort, RunningJob_Status. destruct ev as [st|].
  - destruct (Status st) eqn:Hst; simpl; rewrite ?Hst;
      try (split; [split; [eauto with congruence|done]|by eauto]).
    destruct (Errors st); simpl; (split; [split; [done|]|done]);
      intros (st' & [= <-] & Hne); congruence.
  - destruct report; simpl; (split; [split; [done|by intros (? & ? & _)]|done]).
Qed.

(** X23. When the job completes as Failed, Wait returns the first of its
    errors and Status reports Failed; with no error recorded, Wait
    panics on the empty list. *)
Theorem Wait_failed_job (st : JobStatus) (ev' : Event) (report : option error)
    (r : RunningJob) :
  Status st = job.Failed →
  (Wait (Completed st) report ev' r).1.1.1 =
    match Errors st with
    | err :: _ => Fail err
    | [] => Panic "index out of range [0] with length 0"
    end ∧
  RunningJob_Status (Wait (Completed st) report ev' r).1.1.2 = job.Failed.
Proof.
  intros Hst. unfold Wait, RunningJob_Status. rewrite Hst.
  by destruct (Errors st).
Qed.

(** X24. When a signal comes first, Wait reports the abort of the job under
    the reference JobID/__input/__master and returns an error, never
    nil: Aborted, or the reporter's failure under abort. The final
    status stays unset, so Status reports what it reported before. *)
Theorem Wait_interrupted (ev' : Event) (report : option error) (r : RunningJob) :
  (Wait Signalled report ev' r).1.1.1 =
    Fail (match report with
          | Some err => WrapError "abort" err
          | None => Aborted
          end) ∧
  (Wait Signalled report ev' r).1.1.2 = r ∧
  RunningJob_Status (Wait Signalled report ev' r).1.1.2 = RunningJob_Status r ∧
  (Wait Signalled report ev' r).1.2 =
    [worker.ReportFailure
       {| RefJobID := JobID r; RefStageName := "__input"; RefTaskID := "__master" |}
       Aborted].
Proof. unfold Wait, Abort. by destruct report. Qed.

End RunningJobFacts.

(** * Write options *)

Section WriteOptionFacts.
Import coordinator.

(** X25. buildWriteOption applies the options in order, so the last lease
    given wins, whatever the options before it did; without any option
    the lease is the zero lease. *)
Theorem buildWriteOption_last_lease (opts : list WriteOption) (leases : list LeaseID)
    (l : LeaseID) :
  Lease (buildWriteOption (opts ++ [WithLease l])) = l ∧
  Lease (buildWriteOption (WithLease <$> leases)) = default 0%Z (last leases).
Proof.
  unfold buildWriteOption. split.
  - by rewrite fold_left_app.
  - induction leases as [|l0 leases _] using rev_ind; [done|].
    by rewrite fmap_app, fold_left_app, last_snoc.
Qed.

End WriteOptionFacts.

(** * The job manager: listings *)

Section ListingFacts.
Context `{Externals} `{job.Decoders}.

Lemma GetJobErrors_items_decoded (items : list RawItem) (traces stacktraces : list string) :
  Forall2 (λ item s, job.Unmarshal_string item = Ok s) items traces →
  job.GetJobErrors_items items stacktraces = Ok (stacktraces ++ traces).
Proof.
  intros Hdec. revert stacktraces.
  induction Hdec as [|item s items traces Hitem _ IH]; intros stacktraces; simpl.
  - by rewrite app_nil_r.
  - rewrite Hitem, IH. by rewrite <- app_assoc.
Qed.

(** X26. GetJobErrors returns the stack traces of the scanned items in scan
    order when all of them decode, and otherwise the error of the first
    item that does not, with the key of that item; a scan error is
    passed on as it is. *)
Theorem GetJobErrors_first_undecodable (jobID : string) (items : list RawItem) :
  (∀ traces,
     Forall2 (λ item s, job.Unmarshal_string item = Ok s) items traces →
     (job.GetJobErrors (Ok items) jobID).1 = Ok traces) ∧
  (∀ pre item post traces err,
     items = pre ++ item :: post →
     Forall2 (λ item s, job.Unmarshal_string item = Ok s) pre traces →
     job.Unmarshal_string item = Err err →
     (job.GetJobErrors (Ok items) jobID).1
       = Err (WrapError ("unmarshal item " +:+ Key item) err)) ∧
  (∀ err, (job.GetJobErrors (Err err) jobID).1 = Err err).
Proof.
  split_and!.
  - intros traces Hdec. unfold job.GetJobErrors. simpl.
    by rewrite (GetJobErrors_items_decoded items traces []).
  - intros pre item post traces err -> Hpre Hitem. unfold job.GetJobErrors. simpl.
    generalize (@nil string).
    induction Hpre as [|item' s pre traces Hitem' _ IH]; intros stacktraces; simpl.
    + by rewrite Hitem.
    + rewrite Hitem'. apply IH.
  - done.
Qed.

Lemma ListTasks_items_decoded (items : list RawItem) (tasks filled : list Task) :
  Forall2 (λ item t, job.Unmarshal_Task item = Ok t) items tasks →
  job.ListTasks_items items (length filled)
      ((Some <$> filled) ++ replicate (length items) None)
    = Ok (Some <$> (filled ++ tasks)).
Proof.
  intros Hdec. revert filled.
  induction Hdec as [|item t items tasks Hitem _ IH]; intros filled; simpl.
  - by rewrite !app_nil_r.
  - rewrite Hitem.
    rewrite insert_app_r_alt by (by rewrite length_fmap).
    rewrite length_fmap, Nat.sub_diag. simpl.
    specialize (IH (filled ++ [t])).
    rewrite length_app, Nat.add_1_r, fmap_app, <- !app_assoc in IH. exact IH.
Qed.

Lemma ListTasks_items_undecodable (pre post : list RawItem) (item : RawItem)
    (tasks : list Task) (err : error) (i : nat) (slots : list (option Task)) :
  Forall2 (λ item t, job.Unmarshal_Task item = Ok t) pre tasks →
  job.Unmarshal_Task item = Err err →
  job.ListTasks_items (pre ++ item :: post) i slots
    = Err (WrapError ("unmarshal " +:+ Key item) err).
Proof.
  intros Hpre Hitem. revert i slots.
  induction Hpre as [|item' t pre tasks Hitem' _ IH]; intros i slots; simpl.
  - by rewrite Hitem.
  - rewrite Hitem'. apply IH.
Qed.

(** X27. ListTasks returns one task per scanned item, in scan order and
    with no slot left nil, when all items decode; otherwise it returns
    the error of the first item that does not decode, with the key of
    that item, and no task. *)
Theorem ListTasks_fills_every_slot (prefix : string) (items : list RawItem) :
  (∀ tasks,
     Forall2 (λ item t, job.Unmarshal_Task item = Ok t) items tasks →
     (job.ListTasks (Ok items) prefix).1 = Ok (Some <$> tasks) ∧
     length tasks = length items) ∧
  (∀ pre item post tasks err,
     items = pre ++ item :: post →
     Forall2 (λ item t, job.Unmarshal_Task item = Ok t) pre tasks →
     job.Unmarshal_Task item = Err err →
     (job.ListTasks (Ok items) prefix).1 = Err (WrapError ("unmarshal " +:+ Key item) err)).
Proof.
  split.
  - intros tasks Hdec. split; [|symmetry; by eapply Forall2_length].
    unfold job.ListTasks. simpl.
    exact (ListTasks_items_decoded items tasks [] Hdec).
  - intros pre item post tasks err -> Hpre Hitem. unfold job.ListTasks. simpl.
    by eapply ListTasks_items_undecodable.
Qed.

End ListingFacts.

(** * Test helpers *)

Section ValuesFacts.
Context {Row : Type} (UnmarshalValue : Row → string * option error).

Lemma StringValues_range_map (rows : list Row) (ss : list string) :
  testutils.StringValues_range UnmarshalValue rows ss
    = ss ++ (testutils.StringValue UnmarshalValue <$> rows).
Proof.
  revert ss. induction rows as [|row rows IH]; intros ss; simpl.
  - by rewrite app_nil_r.
  - rewrite IH. by rewrite <- app_assoc.
Qed.

(** X28. StringValues yields one string per row, in the order of the rows:
    the value of each row as StringValue gives it, a row that does not
    decode included. *)
Theorem StringValues_one_per_row (rows more : list Row) :
  testutils.StringValues UnmarshalValue rows
    = testutils.StringValue UnmarshalValue <$> rows ∧
  length (testutils.StringValues UnmarshalValue rows) = length rows ∧
  testutils.StringValues UnmarshalValue (rows ++ more)
    = testutils.StringValues UnmarshalValue rows
        ++ testutils.StringValues UnmarshalValue more.
Proof.
  unfold testutils.StringValues. rewrite !StringValues_range_map. simpl.
  split_and!; [done|by rewrite length_fmap|by rewrite fmap_app].
Qed.

End ValuesFacts.

(** * The registry stays sound *)

Section RegistryFacts.
Context `{Externals}.
Import worker.

Lemma New_registry_sound (o : Options) : registry_sound (New o).
Proof. intros taskID a Hreg. simpl in Hreg. by rewrite lookup_empty in Hreg. Qed.

Lemma createTask_registry_sound (env : TaskEnv) (req : CreateTasksRequest)
    (partitionID : string) (s : Stage) (broadcasts : gmap string string) (w : Worker) :
  registry_sound w →
  registry_sound (createTask env req partitionID s broadcasts w).2.
Proof.
  intros Hsound taskID a.
  destruct (createTask_cases env req partitionID s broadcasts w)
    as [[_ (self & a0 & exec & _ & _ & Hfree & -> & _ & _ & ->)]|(_ & -> & ->)];
    [|apply Hsound].
  intros Hreg. rewrite lookup_insert. case_decide as Ha; [eauto|].
  apply lookup_insert_Some in Hreg as [[_ <-]|[_ Hreg]]; [done|].
  by apply (Hsound taskID).
Qed.

Lemma errgroup_registry_sound (env : nat → TaskEnv) (req : CreateTasksRequest) (s : Stage)
    (broadcasts : gmap string string) (sched : list (nat * string)) (w : Worker)
    (first : option error) :
  registry_sound w →
  registry_sound (errgroup env req s broadcasts sched w first).2.
Proof.
  revert w first. induction sched as [|[i partitionID] rest IH]; intros w first Hsound;
    simpl; [done|].
  pose proof (createTask_registry_sound (env i) req partitionID s broadcasts w Hsound) as Hstep.
  destruct (createTask (env i) req partitionID s broadcasts w) as [[[]|e|why] w1];
    simpl in *; [by apply IH|by apply IH|done].
Qed.

Lemma PushData_registry_sound (stream : PushDataServer) (run : Run) (w w' : Worker)
    (err : option error) :
  registry_sound w →
  PushData stream run w = Returns (err, w') →
  registry_sound w'.
Proof.
  intros Hsound. unfold PushData.
  destruct (DataHeaderFromMetadata stream) as [h|herr]; [|by intros [= <- <-]].
  destruct (getRunningTask w (TaskID h)) as [exec|] eqn:Hexec; [|by intros [= <- <-]].
  assert (Hdispatched : registry_sound (Dispatch stream exec w).2).
  { intros taskID a Hreg. simpl in *. destruct (Hsound taskID a Hreg) as [e He].
    destruct (decide (a = exec)) as [->|Hne].
    - rewrite lookup_alter_eq, He. eauto.
    - rewrite lookup_alter_ne by done. eauto. }
  destruct (Dispatch stream exec w) as [derr w1]. simpl in Hdispatched.
  assert (Hdeferred : ∀ w2, registry_sound w2 →
            registry_sound (set_runningTasks (delete (TaskID h) (runningTasks w2)) w2)).
  { intros w2 Hw2 taskID a. simpl. intros Hreg.
    apply lookup_delete_Some in Hreg as [_ Hreg]. by apply (Hw2 taskID). }
  destruct derr as [derr|].
  - intros [= <- <-]. by apply Hdeferred.
  - unfold WaitForFinish.
    destruct (executors w1 !! exec) as [e|] eqn:He; [|done].
    destruct (finish run e) as [e'|]; [|done].
    intros [= <- <-]. apply (Hdeferred (set_executors (<[exec:=e']> (executors w1)) w1)).
    intros taskID a Hreg. simpl in *. destruct (Hdispatched taskID a Hreg) as [e0 He0].
    destruct (decide (a = exec)) as [->|Hne].
    + rewrite lookup_insert_eq. eauto.
    + rewrite lookup_insert_ne by done. eauto.
Qed.

(** On a sound registry the acknowledgement is only withheld by an
    executor that never finishes. *)
Lemma PushData_blocks (stream : PushDataServer) (run : Run) (w : Worker) :
  registry_sound w →
  PushData stream run w = Blocks →
  run = NeverFinishes.
Proof.
  intros Hsound. unfold PushData.
  destruct (DataHeaderFromMetadata stream) as [h|herr]; [|done].
  destruct (getRunningTask w (TaskID h)) as [exec|] eqn:Hexec; [|done].
  destruct (Hsound _ _ Hexec) as [e He].
  unfold Dispatch, WaitForFinish. destruct (recvErr stream); [done|]. simpl.
  rewrite lookup_alter_eq, He. simpl. unfold finish.
  destruct (terminal _); [done|]. by destruct run as [|[?|]].
Qed.

End RegistryFacts.

(** * The handlers at work *)

Import worker.
Import example.

(** C6. At a request with one partition for which the task is persisted
    and the output writer built, but the executor cannot be constructed,
    createTask returns the wrapped construction error as it is; that
    error is no status error, so its code is Unknown and not Internal. *)
Theorem createTask_executor_failure_code (xerr : error) :
  (createTask (unconstructible xerr) (request "map" ["0"] ∅) "0"
     {| Name := "map"; Function := "identity";
        Output := {| OutStage := "next"; Partitioner := None |} |} ∅ started).1
    = Fail (WrapError "failed to start executor" xerr) ∧
  status_Code (WrapError "failed to start executor" xerr) = Unknown ∧
  status_Code (WrapError "failed to start executor" xerr) ≠ Internal.
Proof. split_and!; [reflexivity|reflexivity|discriminate]. Qed.

(** At the same request the call as a whole fails with that error. *)
Example CreateTasks_executor_failure :
  (CreateTasks (λ _, unconstructible ErrReset) [(0, "0")] (request "map" ["0"] ∅) started).1
    = Fail (WrapError "failed to start executor" ErrReset).
Proof. reflexivity. Qed.

(** A push stream with rows a, b, c for the running task J1/next/0 is
    acknowledged with the executor finished and its entry removed. *)
Lemma PushData_acknowledges_after_finish_witness :
  getRunningTask running "J1/next/0" = Some 0 ∧
  PushData (stream "J1/next/0" [["a"; "b"]; ["c"]] None) (Finishes None) running
    = Returns (None, acknowledged) ∧
  runningTasks acknowledged = delete "J1/next/0" (runningTasks running) ∧
  getRunningTask acknowledged "J1/next/0" = None ∧
  ∃ e, executors acknowledged !! 0 = Some e ∧ terminal (state e) = true.
Proof.
  assert (Hreg : getRunningTask running "J1/next/0" = Some 0) by (vm_compute; reflexivity).
  assert (Hrun : PushData (stream "J1/next/0" [["a"; "b"]; ["c"]] None) (Finishes None) running
                 = Returns (None, acknowledged)) by (vm_compute; reflexivity).
  destruct (PushData_acknowledges_after_finish
              (stream "J1/next/0" [["a"; "b"]; ["c"]] None) (Finishes None)
              running acknowledged
              {| TaskID := "J1/next/0"; FromHost := "10.0.0.8:7466" |} 0 None
              eq_refl Hreg Hrun) as (Hdel & Hgone & Hterm).
  split_and!; [exact Hreg|exact Hrun|exact Hdel|exact Hgone|exact (Hterm eq_refl)].
Defined.

(** A push stream for J1/next/9, which is not registered, is refused
    and the worker stays as it is. *)
Lemma PushData_task_not_found_witness :
  getRunningTask running "J1/next/9" = None ∧
  ∃ err, PushData (stream "J1/next/9" [["a"]] None) (Finishes None) running
           = Returns (Some err, running) ∧
         status_Code err = InvalidArgument ∧
         err = StatusError InvalidArgument "task not found: J1/next/9".
Proof.
  assert (Hreg : getRunningTask running "J1/next/9" = None) by (vm_compute; reflexivity).
  split; [exact Hreg|].
  exact (PushData_task_not_found (stream "J1/next/9" [["a"]] None) (Finishes None) running
           {| TaskID := "J1/next/9"; FromHost := "10.0.0.8:7466" |} eq_refl Hreg).
Defined.

(** A push stream for J1/next/0 that breaks after rows a, b returns the
    error, and a second push for J1/next/0 finds no task. *)
Lemma PushData_dispatch_error_unregisters_witness :
  getRunningTask running "J1/next/0" = Some 0 ∧
  PushData (stream "J1/next/0" [["a"; "b"]] (Some ErrReset)) (Finishes None) running
    = Returns (Some ErrReset, broken) ∧
  getRunningTask broken "J1/next/0" = None ∧
  PushData (stream "J1/next/0" [["c"]] None) (Finishes None) broken
    = Returns (Some (StatusError InvalidArgument "task not found: J1/next/0"), broken).
Proof.
  assert (Hreg : getRunningTask running "J1/next/0" = Some 0) by (vm_compute; reflexivity).
  assert (Hbroken : PushData (stream "J1/next/0" [["a"; "b"]] (Some ErrReset))
                      (Finishes None) running = Returns (Some ErrReset, broken))
    by (vm_compute; reflexivity).
  destruct (PushData_dispatch_error_unregisters
              (stream "J1/next/0" [["a"; "b"]] (Some ErrReset)) (Finishes None) running
              {| TaskID := "J1/next/0"; FromHost := "10.0.0.8:7466" |} 0 ErrReset
              eq_refl Hreg eq_refl) as (w' & Hrun & Hgone & Hretry).
  rewrite Hbroken in Hrun. injection Hrun as <-.
  split_and!; [exact Hreg|exact Hbroken|exact Hgone|].
  exact (Hretry (stream "J1/next/0" [["c"]] None) (Finishes None)
           {| TaskID := "J1/next/0"; FromHost := "10.0.0.8:7466" |} eq_refl eq_refl).
Defined.

(** With the plan that puts partition 0 on this worker, where
    J1/next/0 runs, and partition 1 on a peer, the writer pipes
    partition 0 locally and pushes partition 1. *)
Lemma newOutputWriter_sinks_witness :
  ∃ out,
    newOutputWriter calm running "J1"
      {| Name := "map"; Function := "identity";
         Output := {| OutStage := "next"; Partitioner := None |} |}
      (map_to_list plan) = Return out ∧
    idToOutput out !! "0" = Some (LocalPipe 0) ∧
    idToOutput out !! "1" =
      Some (BufferedOutput {| psHost := "10.0.0.9:7466"; psTaskID := "J1/next/1" |} 1000) ∧
    idToOutput out !! "2" = None.
Proof.
  set (cur := {| Name := "map"; Function := "identity";
                 Output := {| OutStage := "next"; Partitioner := None |} |}).
  destruct (newOutputWriter calm running "J1" cur (map_to_list plan)) as [out| |] eqn:Hout;
    [|vm_compute in Hout; discriminate Hout..].
  exists out. split; [reflexivity|].
  destruct (newOutputWriter_sinks calm running "J1" cur plan (map_to_list plan) out
              (Permutation_refl _) Hout) as [Hsinks Hnone].
  split_and!.
  - destruct (Hsinks "0" "10.0.0.7:41833") as (s & Hs & Hlocal & _);
      [vm_compute; reflexivity|].
    injection Hs as <-. apply Hlocal; vm_compute; reflexivity.
  - destruct (Hsinks "1" "10.0.0.9:7466") as (s & Hs & _ & Hremote);
      [vm_compute; reflexivity|].
    injection Hs as <-. apply Hremote. left. discriminate.
  - apply Hnone. vm_compute; reflexivity.
Defined.

(** Configured with the advertised host 10.0.0.7: and given a listener
    on port 41833, Start registers the host 10.0.0.7:41833. *)
Lemma Start_registers_advertised_host_witness :
  ∃ n, node.Self (nodeManager (Start listening (New options)).1.2) = Some n ∧
       (Start listening (New options)).2 =
         [GrantLease 10000000000; Put "nodes/w1" n 7%Z] ∧
       Host n = "10.0.0.7:41833".
Proof.
  destruct (Start_registers_advertised_host listening (New options)
              {| IP := "127.0.0.1"; Port := 41833 |} 7%Z eq_refl eq_refl)
    as (host & Hcalls & Hself & Hends & _).
  eexists. split_and!; [exact (Hself eq_refl)|exact Hcalls|].
  simpl. rewrite Hends; [reflexivity|]. by exists "10.0.0.7".
Defined.

(** With an advertised host that carries its port, that host is
    registered as it is. *)
Example Start_keeps_advertised_host :
  (Start listening
     (New {| ListenHost := "0.0.0.0:7466"; AdvertisedHost := "10.0.0.7:7466";
             NodeTags := ∅; OptInput := OptInput options;
             OptOutput := OptOutput options |})).2
  = [GrantLease 10000000000;
     Put "nodes/w1" (node_New "w1" "10.0.0.7:7466" NodeWorker) 7%Z].
Proof. vm_compute. reflexivity. Qed.

(** On a manager that has not registered itself, with a coordinator
    that deletes the key, UnregisterNode panics. *)
Lemma UnregisterNode_before_RegisterSelf_witness :
  node.self (nodeManager (New options)) = None ∧
  node.UnregisterNode (Ok 0%Z) "w1" (nodeManager (New options))
    = (Panic nil_dereference, nodeManager (New options), [Delete "nodes/w1"]).
Proof.
  split; [reflexivity|].
  exact (UnregisterNode_before_RegisterSelf (Ok 0%Z) "w1" (nodeManager (New options)) eq_refl).
Defined.

(** C9 as stated fails: on a manager that has not registered itself,
    with a coordinator whose delete fails, UnregisterNode returns an
    error and does not panic. *)
Lemma UnregisterNode_returns_delete_error :
  node.self (nodeManager (New options)) = None ∧
  (node.UnregisterNode (Err ErrReset) "w1" (nodeManager (New options))).1.1
    = Fail (PlainError "failed to remove from etcd: stream terminated by RST_STREAM") ∧
  ¬ ∃ why, (node.UnregisterNode (Err ErrReset) "w1" (nodeManager (New options))).1.1
             = Panic why.
Proof.
  split_and!; [reflexivity|reflexivity|]. intros [why Hpanic]. discriminate Hpanic.
Qed.

(** C7 as stated fails: with a first cached channel whose Close answers
    an error and a second one that is ready, Close returns the error and
    the second channel has not been closed. *)
Lemma Close_leaves_channels_open :
  (node.Close cached).1 = Some ErrClientConnClosing ∧
  ∃ k v, node.conns (node.Close cached).2 !! 1 = Some (k, v) ∧
         node.conns cached !! 1 = Some (k, v) ∧
         node.connState v = node.Ready ∧
         node.connState v ≠ node.Shutdown.
Proof.
  split; [reflexivity|]. do 2 eexists.
  split_and!; [reflexivity|reflexivity|reflexivity|discriminate].
Qed.

(** Close on that cache stops at its first channel; on a cache whose
    channels all close, every channel ends up shut down. *)
Lemma Close_until_first_error_witness :
  node.Close cached = (Some ErrClientConnClosing, cached) ∧
  node.Close (node.set_conns (drop 1 (node.conns cached)) cached)
    = (None,
       node.set_conns
         [("10.0.0.9:7466", {| node.target := "10.0.0.9:7466";
                               node.connState := node.Shutdown; node.closeErr := None |})]
         cached).
Proof.
  split.
  - exact (proj2 (Close_until_first_error cached) [] _ _ _ _ eq_refl (Forall_nil_2 _) eq_refl).
  - apply (proj1 (Close_until_first_error
                    (node.set_conns (drop 1 (node.conns cached)) cached))).
    repeat constructor.
Defined.

(** A scan with two workers and a master yields the workers in scan
    order; with one undecodable master record among them it yields an
    error, also when workers are asked for. *)
Lemma List_all_or_nothing_witness :
  (node.List (Ok [ {| Key := "nodes/a"; Value := "worker" |};
                   {| Key := "nodes/m"; Value := "master" |};
                   {| Key := "nodes/b"; Value := "worker" |} ]) NodeWorker).1
    = Ok [node_New "a" "a" NodeWorker; node_New "b" "b" NodeWorker] ∧
  ∃ err, (node.List (Ok [ {| Key := "nodes/a"; Value := "worker" |};
                          {| Key := "nodes/m"; Value := "{" |};
                          {| Key := "nodes/b"; Value := "worker" |} ]) NodeWorker).1
           = Err err.
Proof.
  split.
  - apply (proj2 (List_all_or_nothing _ NodeWorker)
             [node_New "a" "a" NodeWorker; node_New "m" "m" Master;
              node_New "b" "b" NodeWorker]).
    repeat constructor.
  - apply (proj1 (List_all_or_nothing _ NodeWorker)).
    apply Exists_cons_tl, Exists_cons_hd. by exists (PlainError "invalid character").
Defined.

(** A request for partitions 0 and 1 whose goroutines complete in the
    order 1, 0 succeeds, and both partitions were created. *)
Lemma CreateTasks_success_iff_witness :
  [(1, "1"); (0, "0")] ≡ₚ imap pair (PartitionIDs (request "map" ["0"; "1"] plan)) ∧
  (CreateTasks (λ _, calm) [(1, "1"); (0, "0")] (request "map" ["0"; "1"] plan) started).1
    = Return tt ∧
  ∃ s broadcasts,
    Stage_UnmarshalJSON (ReqStage (request "map" ["0"; "1"] plan)) = Ok s ∧
    DeserializeBroadcast (Broadcasts (request "map" ["0"; "1"] plan)) = Ok broadcasts ∧
    ∀ i partitionID,
      PartitionIDs (request "map" ["0"; "1"] plan) !! i = Some partitionID →
      ∃ before after,
        (i, partitionID, before, after)
          ∈ steps (λ _, calm) (request "map" ["0"; "1"] plan) s broadcasts
              [(1, "1"); (0, "0")] started ∧
        created (request "map" ["0"; "1"] plan) s partitionID before after.
Proof.
  assert (Hsched : [(1, "1"); (0, "0")]
                     ≡ₚ imap pair (PartitionIDs (request "map" ["0"; "1"] plan)))
    by apply perm_swap.
  assert (Hok : (CreateTasks (λ _, calm) [(1, "1"); (0, "0")]
                   (request "map" ["0"; "1"] plan) started).1 = Return tt)
    by (vm_compute; reflexivity).
  split_and!; [exact Hsched|exact Hok|].
  exact (proj1 (proj1 (CreateTasks_success_iff (λ _, calm) [(1, "1"); (0, "0")]
                         (request "map" ["0"; "1"] plan) started Hsched)) Hok).
Defined.

(** C3 as stated fails: a request without partitions whose stage does
    not decode is refused with InvalidArgument, although every one of
    its partition IDs, there being none, was persisted and started. *)
Lemma CreateTasks_refuses_undecodable_stage :
  (CreateTasks (λ _, calm) [] (request "" [] ∅) started).1
    = Fail (StatusError InvalidArgument
              "invalid stage JSON: unexpected end of JSON input") ∧
  ¬ ((CreateTasks (λ _, calm) [] (request "" [] ∅) started).1 = Return tt ↔
     ∀ i partitionID,
       PartitionIDs (request "" [] ∅) !! i = Some partitionID →
       ∃ s broadcasts before after,
         (i, partitionID, before, after)
           ∈ steps (λ _, calm) (request "" [] ∅) s broadcasts [] started ∧
         created (request "" [] ∅) s partitionID before after).
Proof.
  split; [reflexivity|].
  intros [_ Hsuccess].
  assert (Hok : (CreateTasks (λ _, calm) [] (request "" [] ∅) started).1 = Return tt).
  { apply Hsuccess. intros i partitionID Hi. discriminate Hi. }
  discriminate Hok.
Qed.

(** When one partition of several fails, the call fails and the
    executor of the other partition is left running in the registry. *)
Example CreateTasks_partial_failure :
  let env := λ i : nat, if decide (i = 1) then unconstructible ErrReset else calm in
  let r := CreateTasks env [(0, "0"); (1, "1")] (request "map" ["0"; "1"] ∅) started in
  r.1 = Fail (WrapError "failed to start executor" ErrReset) ∧
  getRunningTask r.2 "J1/map/0" = Some 0 ∧
  state <$> executors r.2 !! 0 = Some job.Running ∧
  getRunningTask r.2 "J1/map/1" = None.
Proof. vm_compute. split_and!; reflexivity. Qed.

(** * More of the code at work *)

(** A host whose cached channel is in TransientFailure is dialed again
    and the new channel takes the place of the old one. *)
Lemma Connect_dial_witness :
  (node.Connect (Ok ready) "10.0.0.9:7466" failing).1 = (Ok ready, connected) ∧
  node.Load (node.conns (node.Connect (Ok ready) "10.0.0.9:7466" failing).1.2)
    "10.0.0.9:7466" = Some ready.
Proof.
  destruct (Connect_dial (Ok ready) "10.0.0.9:7466" failing) as (Hc & Hload & _ & _).
  { right. eexists. split; reflexivity. }
  split; [reflexivity|exact Hload].
Defined.

(** The channel dialed for a host is returned again, without a dial. *)
Lemma Connect_reuses_witness :
  node.Connect (Ok ready) "10.0.0.9:7466" (nodeManager started)
    = (Ok ready, connected, [node.DialContext "10.0.0.9:7466" 3000000000]) ∧
  node.Connect (Err ErrReset) "10.0.0.9:7466" connected = (Ok ready, connected, []).
Proof.
  assert (Hfirst : node.Connect (Ok ready) "10.0.0.9:7466" (nodeManager started)
                   = (Ok ready, connected, [node.DialContext "10.0.0.9:7466" 3000000000]))
    by reflexivity.
  split; [exact Hfirst|].
  apply (Connect_reuses (Ok ready) (Err ErrReset) "10.0.0.9:7466" (nodeManager started)
           connected ready _ Hfirst).
  discriminate.
Defined.

(** Dialing a second host leaves both hosts cached, each once. *)
Lemma Connect_hosts_witness :
  NoDup (node.conns (node.Connect (Ok ready) "10.0.0.8:7466" connected).1.2).*1 ∧
  "10.0.0.9:7466" ∈ (node.conns (node.Connect (Ok ready) "10.0.0.8:7466" connected).1.2).*1.
Proof.
  destruct (Connect_hosts (Ok ready) "10.0.0.8:7466" connected) as (Hnodup & Hkept & _).
  { repeat constructor. intros Hin. by apply elem_of_nil in Hin. }
  split; [exact Hnodup|]. apply Hkept. repeat constructor.
Defined.

(** After Close, the cached channel comes back shut down. *)
Lemma Close_then_Connect_witness :
  ∃ c, node.Connect (Err ErrReset) "10.0.0.9:7466" (node.Close connected).2
         = (Ok c, (node.Close connected).2, []) ∧
       node.connState c = node.Shutdown ∧
       node.target c = "10.0.0.9:7466".
Proof.
  apply (Close_then_Connect (Err ErrReset) "10.0.0.9:7466" connected ready).
  - repeat constructor.
  - reflexivity.
Defined.

(** Registering w1 and unregistering it again. *)
Lemma RegisterSelf_then_UnregisterNode_witness :
  ∃ key m2,
    node.UnregisterNode (Ok 1%Z) "w1" (nodeManager started)
      = (Return tt, m2, [Delete key]) ∧
    key = "nodes/w1" ∧
    node.Self m2 = None ∧
    (node.UnregisterNode (Ok 0%Z) "w1" m2).1.1 = Panic nil_dereference.
Proof.
  assert (Hreg : node.RegisterSelf (Ok 7%Z) None self (nodeManager (New options))
                 = (None, nodeManager started,
                    [GrantLease 10000000000; Put "nodes/w1" self 7%Z]))
    by (vm_compute; reflexivity).
  destruct (RegisterSelf_then_UnregisterNode 7%Z self (nodeManager (New options))
              (nodeManager started)
              [GrantLease 10000000000; Put "nodes/w1" self 7%Z] 1%Z 0%Z "w1" Hreg)
    as (key & m2 & Hlast & Hun & Hself & _ & Hpanic).
  injection Hlast as <-.
  exists "nodes/w1", m2. split_and!; [exact Hun|reflexivity|exact Hself|exact Hpanic].
Defined.

(** Unregistering w2 on the manager of w1. *)
Lemma UnregisterNode_other_node_witness :
  node.UnregisterNode (Ok 1%Z) "w2" (nodeManager started)
    = (Return tt, nodeManager started, [Delete "nodes/w2"]).
Proof.
  assert (Hother : "w2" ≠ ID self) by discriminate.
  exact (UnregisterNode_other_node 1%Z "w2" (nodeManager started) self eq_refl Hother).
Defined.

(** Three ticks, two of them failing: three leases asked for, four
    lines logged. *)
Lemma sendPeriodicLivenessProve_every_tick_witness :
  ∃ lines,
    (node.sendPeriodicLivenessProve ticks (nodeManager started)).1 = Return lines ∧
    length lines = 4 ∧
    length (List.filter is_GrantLease
              (node.sendPeriodicLivenessProve ticks (nodeManager started)).2) = 3.
Proof.
  destruct (sendPeriodicLivenessProve_every_tick ticks (nodeManager started) self eq_refl)
    as (lines & Hrun & Hlines & Hgrants & _).
  exists lines. split_and!; [exact Hrun|exact Hlines|exact Hgrants].
Defined.


(** Stop with a coordinator that cannot delete. *)
Lemma Stop_delete_failure_witness :
  Stop (Err ErrReset) started =
    (Fail (WrapError "unregister node"
             (PlainError "failed to remove from etcd: stream terminated by RST_STREAM")),
     started, [Delete "nodes/w1"]).
Proof. exact (Stop_delete_failure ErrReset started self eq_refl). Defined.

(** Start, Stop, and Stop again. *)
Lemma Start_then_Stop_witness :
  ∃ w2,
    Stop (Ok 1%Z) (Start listening (New options)).1.2
      = (Return tt, w2, [Delete "nodes/w1"]) ∧
    node.Self (nodeManager w2) = None ∧
    Stop (Ok 1%Z) w2 = (Panic nil_dereference, w2, []).
Proof.
  destruct (Start_then_Stop listening (New options) {| IP := "127.0.0.1"; Port := 41833 |}
              7%Z 1%Z (Ok 1%Z) eq_refl eq_refl eq_refl (Forall_nil_2 _))
    as (key & n & w2 & Hlast & Hstop & Hself & Hagain).
  injection Hlast as <- _.
  exists w2. split_and!; [exact Hstop|exact Hself|exact Hagain].
Defined.

(** A poll for the running task J1/next/0 panics; one for J1/next/9
    is refused as a push for it is. *)
Lemma PollData_refuses_as_PushData_witness :
  PollData {| PollHeaderFromMetadata :=
                Ok {| TaskID := "J1/next/0"; FromHost := "10.0.0.8:7466" |} |} running
    = Panic "implement me" ∧
  PushData (stream "J1/next/9" [] None) NeverFinishes running
    = Returns (Some (StatusError InvalidArgument "task not found: J1/next/9"), running).
Proof.
  split; [reflexivity|].
  pose proof (PollData_refuses_as_PushData
                {| PollHeaderFromMetadata :=
                     Ok {| TaskID := "J1/next/9"; FromHost := "10.0.0.8:7466" |} |}
                (stream "J1/next/9" [] None) NeverFinishes running eq_refl) as Hpoll.
  change (PollData _ running)
    with (@Fail unit (StatusError InvalidArgument "task not found: J1/next/9")) in Hpoll.
  exact (proj1 Hpoll).
Defined.

(** With partition 0 piped locally and the peer of partition 1 out of
    reach, the writer fails with the error of the push stream. *)
Lemma newOutputWriter_first_failure_witness :
  newOutputWriter unreachable running "J1" map_stage
    [("0", "10.0.0.7:41833"); ("1", "10.0.0.9:7466")] = Fail ErrReset.
Proof.
  apply (proj2 (newOutputWriter_first_failure unreachable running self "J1" map_stage
                  [("0", "10.0.0.7:41833"); ("1", "10.0.0.9:7466")] eq_refl)
           [("0", "10.0.0.7:41833")] "1" "10.0.0.9:7466" [] ErrReset eq_refl).
  - repeat constructor. exists 0. vm_compute. reflexivity.
  - left. discriminate.
  - reflexivity.
Defined.

(** After the request for partitions 0 and 1 has succeeded, both
    references resolve to running executors. *)
Lemma CreateTasks_registers_every_partition_witness :
  ∃ s, Stage_UnmarshalJSON (ReqStage (request "map" ["0"; "1"] plan)) = Ok s ∧
       ∀ i partitionID,
         PartitionIDs (request "map" ["0"; "1"] plan) !! i = Some partitionID →
         serves (CreateTasks (λ _, calm) [(1, "1"); (0, "0")]
                   (request "map" ["0"; "1"] plan) started).2
           (ReqJobId (request "map" ["0"; "1"] plan)) (Name s) partitionID.
Proof.
  assert (Hsched : [(1, "1"); (0, "0")]
                     ≡ₚ imap pair (PartitionIDs (request "map" ["0"; "1"] plan)))
    by apply perm_swap.
  assert (Hok : (CreateTasks (λ _, calm) [(1, "1"); (0, "0")]
                   (request "map" ["0"; "1"] plan) started).1 = Return tt)
    by (vm_compute; reflexivity).
  exact (CreateTasks_registers_every_partition (λ _, calm) [(1, "1"); (0, "0")]
           (request "map" ["0"; "1"] plan) started Hsched Hok).
Defined.

(** And a push for J1/map/0 is then acknowledged, once. *)
Lemma CreateTasks_then_PushData_witness :
  ∃ w',
    PushData (stream "J1/map/0" [["a"]] None) (Finishes None)
      (CreateTasks (λ _, calm) [(1, "1"); (0, "0")]
         (request "map" ["0"; "1"] plan) started).2
      = Returns (None, w') ∧
    PushData (stream "J1/map/0" [["b"]] None) (Finishes None) w'
      = Returns (Some (StatusError InvalidArgument "task not found: J1/map/0"), w').
Proof.
  assert (Hsched : [(1, "1"); (0, "0")]
                     ≡ₚ imap pair (PartitionIDs (request "map" ["0"; "1"] plan)))
    by apply perm_swap.
  assert (Hok : (CreateTasks (λ _, calm) [(1, "1"); (0, "0")]
                   (request "map" ["0"; "1"] plan) started).1 = Return tt)
    by (vm_compute; reflexivity).
  exact (CreateTasks_then_PushData (λ _, calm) [(1, "1"); (0, "0")]
           (request "map" ["0"; "1"] plan) started map_stage 0 "0"
           (stream "J1/map/0" [["a"]] None) (stream "J1/map/0" [["b"]] None)
           "10.0.0.8:7466" "10.0.0.8:7466" None (Finishes None)
           Hsched Hok eq_refl eq_refl eq_refl eq_refl eq_refl).
Defined.

(** Of three partitions the second cannot get its executor: the call
    returns that error, and the third partition is created all the
    same. *)
Lemma CreateTasks_first_error_witness :
  let env := λ i : nat, if decide (i = 1) then unconstructible ErrReset else calm in
  let r := CreateTasks env ([(0, "0")] ++ (1, "1") :: [(2, "2")])
             (request "map" ["0"; "1"; "2"] ∅) started in
  r.1 = Fail (WrapError "failed to start executor" ErrReset) ∧
  is_Some (getRunningTask r.2 "J1/map/2").
Proof.
  intros env r.
  assert (Hstage : Stage_UnmarshalJSON (ReqStage (request "map" ["0"; "1"; "2"] ∅))
                   = Ok map_stage) by reflexivity.
  assert (Hpre : errgroup env (request "map" ["0"; "1"; "2"] ∅) map_stage ∅
                   [(0, "0")] started None
                 = (Return None,
                    (errgroup env (request "map" ["0"; "1"; "2"] ∅) map_stage ∅
                       [(0, "0")] started None).2))
    by (vm_compute; reflexivity).
  assert (Hfail : (createTask (env 1) (request "map" ["0"; "1"; "2"] ∅) "1" map_stage ∅
                     (errgroup env (request "map" ["0"; "1"; "2"] ∅) map_stage ∅
                        [(0, "0")] started None).2).1
                  = Fail (WrapError "failed to start executor" ErrReset))
    by (vm_compute; reflexivity).
  destruct (CreateTasks_first_error env (request "map" ["0"; "1"; "2"] ∅) started _ self
              map_stage ∅ [(0, "0")] [(2, "2")] 1 "1"
              (WrapError "failed to start executor" ErrReset)
              eq_refl Hstage eq_refl Hpre Hfail) as [Hresult Hstate].
  split; [exact Hresult|].
  unfold r. rewrite Hstate. exists 1. vm_compute. reflexivity.
Defined.

(** With the peer of partition 1 out of reach, createTask fails with
    code Internal. *)
Lemma createTask_error_code_witness :
  (createTask unreachable (request "map" ["0"] plan) "0" map_stage ∅ started).1
    = Fail (StatusError Internal
              "unable to create output: stream terminated by RST_STREAM") ∧
  status_Code (StatusError Internal
                 "unable to create output: stream terminated by RST_STREAM") = Internal.
Proof.
  assert (Hfail : (createTask unreachable (request "map" ["0"] plan) "0" map_stage ∅
                     started).1
                  = Fail (StatusError Internal
                            "unable to create output: stream terminated by RST_STREAM"))
    by (vm_compute; reflexivity).
  split; [exact Hfail|].
  exact (proj1 (createTask_error_code unreachable (request "map" ["0"] plan) "0" map_stage ∅
                  started _ eq_refl Hfail)).
Defined.

(** A job that failed with one error recorded. *)
Lemma Wait_failed_job_witness :
  (lrmr.Wait (lrmr.Completed {| lrmr.Status := job.Failed; lrmr.Errors := [ErrReset] |})
     None lrmr.Signalled {| lrmr.JobID := "J1"; lrmr.finalStatus := None |}).1.1.1
    = Fail ErrReset.
Proof.
  exact (proj1 (Wait_failed_job {| lrmr.Status := job.Failed; lrmr.Errors := [ErrReset] |}
                  lrmr.Signalled None {| lrmr.JobID := "J1"; lrmr.finalStatus := None |}
                  eq_refl)).
Defined.

(** The listings on a scan of three items. *)
Example ListTasks_three_items :
  (job.ListTasks (Ok [ {| Key := "tasks/a"; Value := "J1/map/0" |};
                       {| Key := "tasks/b"; Value := "J1/map/1" |} ]) "J1").1
    = Ok [ Some {| JobID := "J1"; StageName := "map"; PartitionID := "0"; NodeID := "w1" |};
           Some {| JobID := "J1"; StageName := "map"; PartitionID := "1"; NodeID := "w1" |} ] ∧
  (job.ListTasks (Ok [ {| Key := "tasks/a"; Value := "J1/map/0" |};
                       {| Key := "tasks/b"; Value := "J1" |};
                       {| Key := "tasks/c"; Value := "" |} ]) "J1").1
    = Err (WrapError "unmarshal tasks/b" (PlainError "invalid character")).
Proof. split; vm_compute; reflexivity. Qed.

(** The values of three rows, the second of which does not decode. *)
Example StringValues_three_rows :
  testutils.StringValues UnmarshalValue ["a"; "?"; "c"] = ["a"; ""; "c"].
Proof. reflexivity. Qed.
